(** * File manager: callback, promise and async/await variants

    A shallow embedding of the file-operations module of the repository
    ([fileManager.js], and the three classes of
    [week3_async_patterns_evolution.js]) and of the request handler of
    [server.js], together with the properties stated for them.

    JavaScript strings are sequences of UTF-16 code units; they are modelled
    as lists of integers.  The file system and the clock are collaborators of
    the module: they are modelled by an explicit [world] that every
    file-system call reads and updates.  The base directory is taken to
    exist: [initializeDirectory] has run. *)

From Stdlib Require Import ZArith List Bool Lia String Ascii Permutation.
From stdpp Require Import base tactics option list gmap strings.

Local Open Scope Z_scope.

(** ** JavaScript strings *)

(** A string is the list of its UTF-16 code units. *)
Definition jsstring := list Z.

(** The code units of an ASCII literal. *)
Definition js (s : string) : jsstring :=
  map (fun a => Z.of_N (N_of_ascii a)) (list_ascii_of_string s).

(** [s.length] *)
Definition js_length (s : jsstring) : Z := Z.of_nat (length s).

(** [s.startsWith(p)] *)
Fixpoint startsWith (s p : jsstring) {struct p} : bool :=
  match p with
  | [] => true
  | c :: p' =>
      match s with
      | [] => false
      | d :: s' => (d =? c) && startsWith s' p'
      end
  end.

(** [s.includes(p)]: [p] starts at some position of [s]. *)
Fixpoint includes (s p : jsstring) : bool :=
  startsWith s p ||
  match s with
  | [] => false
  | _ :: s' => includes s' p
  end.

(** [a === b] on strings *)
Fixpoint js_eqb (a b : jsstring) : bool :=
  match a, b with
  | [], [] => true
  | c :: a', d :: b' => (c =? d) && js_eqb a' b'
  | _, _ => false
  end.

(** [path.split('/').pop()]: what follows the last ['/'] of [s] ([acc] is the
    segment being read). *)
Fixpoint last_segment (acc s : jsstring) : jsstring :=
  match s with
  | [] => acc
  | c :: s' =>
      if c =? 47 then last_segment [] s' else last_segment (acc ++ [c]) s'
  end.

(** ** The filename validator *)

Module Validator.

(** One character of the class [[a-zA-Z0-9-_\.]]. *)
Definition in_class (c : Z) : bool :=
  ((97 <=? c) && (c <=? 122)) ||
  ((65 <=? c) && (c <=? 90)) ||
  ((48 <=? c) && (c <=? 57)) ||
  (c =? 45) || (c =? 95) || (c =? 46).

(** [/^[a-zA-Z0-9-_\.]+$/.test(s)]: without the [m] flag, [^] and [$] match
    only at the two ends of the input, so the test holds when [s] has at
    least one character and all of them are in the class. *)
Definition validFilenameRegex_test (s : jsstring) : bool :=
  match s with
  | [] => false
  | _ :: _ => forallb in_class s
  end.

(** [isValidFilename(filename)], the same text in [FileManager],
    [FileManagerCallback], [FileManagerPromise] and [FileManagerAsync]. *)
Definition isValidFilename (filename : jsstring) : bool :=
  validFilenameRegex_test filename &&
  (js_length filename >? 0) &&
  (js_length filename <=? 255) &&
  negb (includes filename (js "..")) &&
  negb (startsWith filename (js ".")) &&
  negb (includes filename (js "/")) &&
  negb (includes filename (js "\")).

(** *** The validator as the specification words it *)

(** A character of [[A-Za-z0-9-_.]]. *)
Definition allowed_char (c : Z) : Prop :=
  (65 <= c <= 90) \/ (97 <= c <= 122) \/ (48 <= c <= 57) \/
  c = 45 \/ c = 95 \/ c = 46.

(** [sub] occurs in [s] as a substring. *)
Definition has_substring (s sub : jsstring) : Prop :=
  exists pre post, s = pre ++ sub ++ post.

(** [s] begins with [p]. *)
Definition has_prefix (s p : jsstring) : Prop :=
  exists rest, s = p ++ rest.

Definition spec_valid (s : jsstring) : Prop :=
  s <> [] /\
  (length s <= 255)%nat /\
  Forall allowed_char s /\
  ~ has_substring s (js "..") /\
  ~ has_prefix s (js ".") /\
  ~ In 47 s /\
  ~ In 92 s.

End Validator.

(** ** UTF-8, as the platform encodes and decodes file content

    [fs.writeFile(path, content, 'utf8')] stores the UTF-8 encoding of the
    string and [fs.readFile(path, 'utf8')] decodes the stored bytes.  The
    encoder reads surrogate pairs as one code point and replaces an unpaired
    surrogate by U+FFFD; the decoder replaces every ill-formed sequence by
    U+FFFD and keeps a leading byte-order mark. *)

Module Utf8.

Definition is_high (u : Z) : bool := (0xD800 <=? u) && (u <=? 0xDBFF).
Definition is_low (u : Z) : bool := (0xDC00 <=? u) && (u <=? 0xDFFF).

(** The bytes of U+FFFD. *)
Definition replacement : list Z := [0xEF; 0xBF; 0xBD].

Definition encode_code_point (cp : Z) : list Z :=
  if cp <? 0x80 then [cp]
  else if cp <? 0x800 then [0xC0 + cp / 64; 0x80 + cp mod 64]
  else if cp <? 0x10000 then
    [0xE0 + cp / 4096; 0x80 + (cp / 64) mod 64; 0x80 + cp mod 64]
  else
    [0xF0 + cp / 262144; 0x80 + (cp / 4096) mod 64;
     0x80 + (cp / 64) mod 64; 0x80 + cp mod 64].

Definition pair_code_point (hi lo : Z) : Z :=
  0x10000 + (hi - 0xD800) * 1024 + (lo - 0xDC00).

Fixpoint encode (s : jsstring) : list Z :=
  match s with
  | [] => []
  | u :: rest =>
      if is_high u then
        match rest with
        | v :: rest' =>
            if is_low v
            then encode_code_point (pair_code_point u v) ++ encode rest'
            else replacement ++ encode rest
        | [] => replacement
        end
      else if is_low u then replacement ++ encode rest
      else encode_code_point u ++ encode rest
  end.

(** [Buffer.byteLength(s, 'utf8')] *)
Definition byteLength (s : jsstring) : Z := Z.of_nat (length (encode s)).

(** The code units of one decoded code point. *)
Definition units_of_code_point (cp : Z) : jsstring :=
  if cp <? 0x10000 then [cp]
  else [0xD800 + (cp - 0x10000) / 1024; 0xDC00 + (cp - 0x10000) mod 1024].

(** What a byte is when no sequence is open: a character of its own, the
    lead of a sequence of [S needed] more bytes whose next byte must lie in
    [[lower, upper]], or an error. *)
Inductive first_byte :=
| Single
| Lead (needed : nat) (cp lower upper : Z)
| Bad.

Definition classify (b : Z) : first_byte :=
  if b <=? 0x7F then Single
  else if (0xC2 <=? b) && (b <=? 0xDF) then Lead 0 (b mod 32) 0x80 0xBF
  else if (0xE0 <=? b) && (b <=? 0xEF) then
    Lead 1 (b mod 16) (if b =? 0xE0 then 0xA0 else 0x80)
                        (if b =? 0xED then 0x9F else 0xBF)
  else if (0xF0 <=? b) && (b <=? 0xF4) then
    Lead 2 (b mod 8) (if b =? 0xF0 then 0x90 else 0x80)
                       (if b =? 0xF4 then 0x8F else 0xBF)
  else Bad.

(** The decoder's state between two bytes: no sequence open, or a sequence
    that needs [S needed] more bytes. *)
Inductive pending_sequence :=
| Idle
| Open (needed : nat) (cp lower upper : Z).

Fixpoint decode_from (st : pending_sequence) (bytes : list Z) : jsstring :=
  match bytes with
  | [] => match st with Idle => [] | Open _ _ _ _ => [0xFFFD] end
  | b :: rest =>
      let fresh :=
        match classify b with
        | Single => b :: decode_from Idle rest
        | Lead n cp lo hi => decode_from (Open n cp lo hi) rest
        | Bad => 0xFFFD :: decode_from Idle rest
        end in
      match st with
      | Idle => fresh
      | Open n cp lo hi =>
          if (lo <=? b) && (b <=? hi) then
            let cp' := cp * 64 + b mod 64 in
            match n with
            | O => units_of_code_point cp' ++ decode_from Idle rest
            | S n' => decode_from (Open n' cp' 0x80 0xBF) rest
            end
          else 0xFFFD :: fresh
      end
  end.

Definition decode (bytes : list Z) : jsstring := decode_from Idle bytes.

(** A string whose code units are 16-bit and whose surrogates are paired. *)
Fixpoint well_formed (s : jsstring) : bool :=
  match s with
  | [] => true
  | u :: rest =>
      if is_high u then
        match rest with
        | v :: rest' => is_low v && well_formed rest'
        | [] => false
        end
      else (0 <=? u) && (u <? 0x10000) && negb (is_low u) && well_formed rest
  end.

End Utf8.

(** ** Errors and promise states *)

(** An [Error] object: [error.message] and [error.code] ([None] when the
    property is absent, as on [new Error(msg)]). *)
Record jserror := { message : jsstring; code : option jsstring }.

(** [new Error(msg)] *)
Definition new_Error (msg : string) : jserror :=
  {| message := js msg; code := None |}.

(** [error.code === c] *)
Definition code_is (error : jserror) (c : string) : bool :=
  match code error with
  | Some c' => js_eqb c' (js c)
  | None => false
  end.

(** [error.message === msg] *)
Definition message_is (error : jserror) (msg : string) : bool :=
  js_eqb (message error) (js msg).

(** The state a promise ends in: pending for ever, fulfilled or rejected. *)
Inductive state (A : Type) :=
| Pending
| Fulfilled (value : A)
| Rejected (reason : jserror).
Arguments Pending {A}.
Arguments Fulfilled {A} value.
Arguments Rejected {A} reason.

(** ** The file system

    The world holds the content of the base directory (the module reads and
    writes nowhere else), the wall clock, the file-system calls made so far
    and what other processes do to the directory meanwhile. *)

Record Stats := { size : Z; birthtime : Z; mtime : Z }.

Inductive node :=
| File (data : list Z) (born modified : Z)
| Directory (st : Stats).

(** The entries of the base directory, in the order [readdir] enumerates
    them. *)
Definition directory := list (jsstring * node).

(** [path.join(baseDir, filename)].  The join is made on a validated filename
    or on a name returned by [readdir]: the result is the direct child
    [filename] of [baseDir], kept here as the pair. *)
Record filepath := { dirname : jsstring; basename : jsstring }.

Definition path_join (baseDir filename : jsstring) : filepath :=
  {| dirname := baseDir; basename := filename |}.

Definition path_string (p : filepath) : jsstring :=
  dirname p ++ js "/" ++ basename p.

Inductive syscall :=
| SysAccess (p : filepath)
| SysWriteFile (p : filepath) (bytes : list Z)
| SysReadFile (p : filepath)
| SysStat (p : filepath)
| SysUnlink (p : filepath)
| SysReaddir (dir : jsstring).

(** What another process does to the directory between two calls of this
    one. *)
Inductive interference :=
| Nothing
| Removes (name : jsstring)
| Writes (name : jsstring) (bytes : list Z).

(** [others] lists what the other processes do before each of the calls to
    come, one turn a call; when it is empty they do nothing. *)
Record world := {
  entries : directory;
  clock : Z;
  calls : list syscall;
  others : list interference
}.

(** A call of the file-system API, a promise, or the call of an async
    function: run on a world, it ends in a state and leaves a world. *)
Definition promise (A : Type) := world -> state A * world.

Module Fs.

Fixpoint lookup (name : jsstring) (d : directory) : option node :=
  match d with
  | [] => None
  | (n, x) :: d' => if js_eqb n name then Some x else lookup name d'
  end.

Fixpoint remove (name : jsstring) (d : directory) : directory :=
  match d with
  | [] => []
  | (n, x) :: d' =>
      if js_eqb n name then remove name d' else (n, x) :: remove name d'
  end.

(** Replace the entry in place, or add it after the others. *)
Fixpoint put (name : jsstring) (x : node) (d : directory) : directory :=
  match d with
  | [] => [(name, x)]
  | (n, y) :: d' =>
      if js_eqb n name then (n, x) :: d' else (n, y) :: put name x d'
  end.

(** Writing [bytes] at time [now]: a new file is born, an existing one keeps
    its birth time. *)
Definition written (old : option node) (bytes : list Z) (now : Z) : node :=
  match old with
  | Some (File _ born _) => File bytes born now
  | _ => File bytes now now
  end.

Definition stats_of (x : node) : Stats :=
  match x with
  | File bytes born modified =>
      {| size := Z.of_nat (length bytes); birthtime := born;
         mtime := modified |}
  | Directory st => st
  end.

Definition disturb (i : interference) (now : Z) (d : directory) : directory :=
  match i with
  | Nothing => d
  | Removes name => remove name d
  | Writes name bytes => put name (written (lookup name d) bytes now) d
  end.

(** The message and code of a failed call, as the platform builds them. *)
Definition failure (c description call : string) (p : filepath) : jserror :=
  {| message := js c ++ js ": " ++ js description ++ js ", " ++ js call
                ++ js " '" ++ path_string p ++ js "'";
     code := Some (js c) |}.

Definition ENOENT := failure "ENOENT" "no such file or directory".
Definition EISDIR := failure "EISDIR" "illegal operation on a directory".

(** One call: the other processes take their turn, then the call is served
    on the directory it finds, and recorded. *)
Definition serve {A} (c : syscall)
    (f : directory -> Z -> state A * directory) : promise A :=
  fun w =>
  let '(turn, later) :=
    match others w with
    | [] => (Nothing, [])
    | i :: l => (i, l)
    end in
  let '(r, d) := f (disturb turn (clock w) (entries w)) (clock w) in
  (r, {| entries := d; clock := clock w; calls := calls w ++ [c];
         others := later |}).

Definition access (p : filepath) : promise unit :=
  serve (SysAccess p) (fun d _ =>
    match lookup (basename p) d with
    | Some _ => (Fulfilled tt, d)
    | None => (Rejected (ENOENT "access" p), d)
    end).

Definition writeFile (p : filepath) (content : jsstring) : promise unit :=
  let bytes := Utf8.encode content in
  serve (SysWriteFile p bytes) (fun d now =>
    match lookup (basename p) d with
    | Some (Directory _) => (Rejected (EISDIR "open" p), d)
    | old => (Fulfilled tt, put (basename p) (written old bytes now) d)
    end).

Definition readFile (p : filepath) : promise jsstring :=
  serve (SysReadFile p) (fun d _ =>
    match lookup (basename p) d with
    | Some (File bytes _ _) => (Fulfilled (Utf8.decode bytes), d)
    | Some (Directory _) => (Rejected (EISDIR "read" p), d)
    | None => (Rejected (ENOENT "open" p), d)
    end).

Definition stat (p : filepath) : promise Stats :=
  serve (SysStat p) (fun d _ =>
    match lookup (basename p) d with
    | Some x => (Fulfilled (stats_of x), d)
    | None => (Rejected (ENOENT "stat" p), d)
    end).

Definition unlink (p : filepath) : promise unit :=
  serve (SysUnlink p) (fun d _ =>
    match lookup (basename p) d with
    | Some (File _ _ _) => (Fulfilled tt, remove (basename p) d)
    | Some (Directory _) => (Rejected (EISDIR "unlink" p), d)
    | None => (Rejected (ENOENT "unlink" p), d)
    end).

Definition readdir (dir : jsstring) : promise (list jsstring) :=
  serve (SysReaddir dir) (fun d _ => (Fulfilled (map fst d), d)).

(** [new Date()] *)
Definition now (w : world) : Z := clock w.

End Fs.

(** ** Calls started together *)

(** Calls started one after the other, without waiting: each is served in
    turn, in the order they were started. *)
Fixpoint start_all {A} (started : list (promise A)) (w : world)
    : list (state A) * world :=
  match started with
  | [] => ([], w)
  | p :: rest =>
      let '(r, w1) := p w in
      let '(rs, w2) := start_all rest w1 in
      (r :: rs, w2)
  end.

(** ** The order in which concurrent calls complete

    Calls started together complete in an order the program does not choose.
    A schedule is a list of numbers: at each step the number at its head
    selects, modulo their count, which of the calls still in flight completes
    next.  Every list is a schedule and every order is the order of one. *)

Definition schedule := list nat.

Fixpoint extract {A} (k : nat) (l : list A) {struct l}
    : option (A * list A) :=
  match l with
  | [] => None
  | x :: l' =>
      match k with
      | O => Some (x, l')
      | S k' =>
          match extract k' l' with
          | Some (y, r) => Some (y, x :: r)
          | None => None
          end
      end
  end.

Fixpoint completion_order_aux {A} (fuel : nat) (s : schedule)
    (inflight : list A) : list A :=
  match fuel with
  | O => []
  | S fuel' =>
      match extract (hd O s mod length inflight)%nat inflight with
      | Some (x, r) => x :: completion_order_aux fuel' (tl s) r
      | None => []
      end
  end.

Definition completion_order {A} (s : schedule) (inflight : list A) : list A :=
  completion_order_aux (length inflight) s inflight.

(** ** Async functions, callbacks and promise objects *)

Module Async.

(** [return v] *)
Definition ret {A} (v : A) : promise A := fun w => (Fulfilled v, w).

(** [throw e] *)
Definition throw {A} (e : jserror) : promise A := fun w => (Rejected e, w).

(** [const x = await m; k] *)
Definition bind {A B} (m : promise A) (k : A -> promise B) : promise B :=
  fun w =>
    match m w with
    | (Fulfilled v, w') => k v w'
    | (Rejected e, w') => (Rejected e, w')
    | (Pending, w') => (Pending, w')
    end.

(** [try { body } catch (error) { handler }] *)
Definition try_catch {A} (body : promise A) (handler : jserror -> promise A)
    : promise A :=
  fun w =>
    match body w with
    | (Rejected e, w') => handler e w'
    | r => r
    end.

(** [new Date()] *)
Definition new_Date : promise Z := fun w => (Fulfilled (Fs.now w), w).

End Async.

Declare Scope async_scope.
Delimit Scope async_scope with async.
Notation "'let*' x ':=' m 'in' k" := (Async.bind m (fun x => k))
  (at level 10, x name, m at level 100, k at level 200) : async_scope.

(** A computation in callback style: run on a world, it makes the calls of
    the callbacks it was given, in order, and leaves a world.  [X] is what one
    call of a callback leaves behind. *)
Definition task (X : Type) := world -> list X * world.

(** The arguments of a node-style callback: [callback(error)] or
    [callback(null, result)]. *)
Inductive cbargs (A : Type) :=
| Err (error : jserror)
| Ok (result : A).
Arguments Err {A} error.
Arguments Ok {A} result.

Module Callback.

(** [return;] *)
Definition finished {X} : task X := fun w => ([], w).

(** One task after the other. *)
Definition seq {X} (t1 t2 : task X) : task X :=
  fun w =>
    let '(l1, w1) := t1 w in
    let '(l2, w2) := t2 w1 in
    (l1 ++ l2, w2).

(** [fs.f(args, k)]: the call is made, then [k] is called with its result. *)
Definition call {A X} (c : promise A) (k : cbargs A -> task X) : task X :=
  fun w =>
    match c w with
    | (Fulfilled v, w') => k (Ok v) w'
    | (Rejected e, w') => k (Err e) w'
    | (Pending, w') => ([], w')
    end.

(** The callback that records its arguments. *)
Definition record {A} : cbargs A -> task (cbargs A) := fun r w => ([r], w).

(** What the caller of a callback-style function ends up knowing. *)
Definition observed {A} (l : list (cbargs A)) : state A :=
  match l with
  | [] => Pending
  | Err e :: _ => Rejected e
  | Ok v :: _ => Fulfilled v
  end.

End Callback.

Module Promise.

(** [new Promise((resolve, reject) => { ... })]: the executor runs at once;
    the first call of [resolve] or [reject] settles the promise, later ones
    are ignored. *)
Definition new_Promise {A}
    (executor : (A -> task (state A)) -> (jserror -> task (state A)) ->
                task (state A)) : promise A :=
  fun w =>
    let '(settlements, w') :=
      executor (fun v w => ([Fulfilled v], w))
               (fun e w => ([Rejected e], w)) w in
    (hd Pending settlements, w').

(** [p.then(onFulfilled).catch(onRejected)], where [onFulfilled] does not
    throw. *)
Definition then_catch {A X} (p : promise A) (onFulfilled : A -> task X)
    (onRejected : jserror -> task X) : task X :=
  fun w =>
    match p w with
    | (Fulfilled v, w') => onFulfilled v w'
    | (Rejected e, w') => onRejected e w'
    | (Pending, w') => ([], w')
    end.

Definition is_settled {A} (r : state A) : bool :=
  match r with Pending => false | _ => true end.

Fixpoint first_rejection {A} (l : list (state A)) : option jserror :=
  match l with
  | [] => None
  | Rejected e :: _ => Some e
  | _ :: l' => first_rejection l'
  end.

Fixpoint values {A} (l : list (state A)) : option (list A) :=
  match l with
  | [] => Some []
  | Fulfilled v :: l' =>
      match values l' with
      | Some vs => Some (v :: vs)
      | None => None
      end
  | _ :: _ => None
  end.

(** The state of [Promise.all(promises)] when the promises that settle do so
    in the order of schedule [s]: rejected with the reason of the first one
    to reject, else fulfilled with the values in the order of the array once
    all are fulfilled. *)
Definition all_state {A} (s : schedule) (states : list (state A))
    : state (list A) :=
  match first_rejection
          (completion_order s (List.filter is_settled states)) with
  | Some e => Rejected e
  | None =>
      match values states with
      | Some vs => Fulfilled vs
      | None => Pending
      end
  end.

(** [Promise.all(promises)] *)
Definition all {A} (s : schedule) (promises : list (promise A))
    : promise (list A) :=
  fun w =>
    let '(states, w') := start_all promises w in
    (all_state s states, w').

End Promise.

(** ** The results of the operations *)

Module CreateResult.
Record t := { filename : jsstring; path : jsstring; size : Z; created : Z }.
End CreateResult.

Module ReadResult.
Record t := { filename : jsstring; content : jsstring; size : Z;
              created : Z; modified : Z }.
End ReadResult.

Module DeleteResult.
Record t := { filename : jsstring; deleted : bool; timestamp : Z }.
End DeleteResult.

Module FileDetails.
Record t := { filename : jsstring; size : Z; created : Z; modified : Z }.
End FileDetails.

(** An instance of one of the classes: [this.baseDir]. *)
Record manager := { baseDir : jsstring }.

(** ** [FileManager] ([fileManager.js]) and [FileManagerAsync]

    The two classes have the same text, up to the name under which
    [require('fs').promises] is imported.  The calls of [logger] leave no
    trace in the results and are not modelled. *)

Module FileManager.
Import Async.
Local Open Scope async_scope.

Definition isValidFilename := Validator.isValidFilename.

Definition createFile (this : manager) (filename content : jsstring)
    : promise CreateResult.t :=
  try_catch
    (if negb (isValidFilename filename) then
       throw (new_Error "Invalid filename")
     else
       let filePath := path_join (baseDir this) filename in
       let* _ :=
         try_catch
           (let* _ := Fs.access filePath in
            throw (new_Error "File already exists"))
           (fun error =>
              if negb (code_is error "ENOENT") then throw error
              else ret tt) in
       let* _ := Fs.writeFile filePath content in
       let* date := new_Date in
       ret {| CreateResult.filename := filename;
              CreateResult.path := path_string filePath;
              CreateResult.size := js_length content;
              CreateResult.created := date |})
    (fun error => throw error).

Definition readFile (this : manager) (filename : jsstring)
    : promise ReadResult.t :=
  try_catch
    (if negb (isValidFilename filename) then
       throw (new_Error "Invalid filename")
     else
       let filePath := path_join (baseDir this) filename in
       let* content := Fs.readFile filePath in
       let* stats := Fs.stat filePath in
       ret {| ReadResult.filename := filename;
              ReadResult.content := content;
              ReadResult.size := size stats;
              ReadResult.created := birthtime stats;
              ReadResult.modified := mtime stats |})
    (fun error =>
       if code_is error "ENOENT" then throw (new_Error "File not found")
       else throw error).

Definition deleteFile (this : manager) (filename : jsstring)
    : promise DeleteResult.t :=
  try_catch
    (if negb (isValidFilename filename) then
       throw (new_Error "Invalid filename")
     else
       let filePath := path_join (baseDir this) filename in
       let* _ :=
         try_catch (Fs.access filePath)
           (fun error =>
              if code_is error "ENOENT" then
                throw (new_Error "File not found")
              else throw error) in
       let* _ := Fs.unlink filePath in
       let* date := new_Date in
       ret {| DeleteResult.filename := filename;
              DeleteResult.deleted := true;
              DeleteResult.timestamp := date |})
    (fun error => throw error).

(** [s] is the order in which the [stat] calls given to [Promise.all]
    complete. *)
Definition listFiles (this : manager) (s : schedule)
    : promise (list FileDetails.t) :=
  try_catch
    (let* files := Fs.readdir (baseDir this) in
     let* fileDetails :=
       Promise.all s
         (map (fun filename =>
                 let filePath := path_join (baseDir this) filename in
                 let* stats := Fs.stat filePath in
                 ret {| FileDetails.filename := filename;
                        FileDetails.size := size stats;
                        FileDetails.created := birthtime stats;
                        FileDetails.modified := mtime stats |})
              files) in
     ret fileDetails)
    (fun error => throw error).

End FileManager.

Module FileManagerAsync := FileManager.

(** ** [FileManagerCallback] *)

Module FileManagerCallback.
Import Callback.

Definition isValidFilename := Validator.isValidFilename.

Definition createFile {X} (this : manager) (filename content : jsstring)
    (callback : cbargs CreateResult.t -> task X) : task X :=
  if negb (isValidFilename filename) then
    callback (Err (new_Error "Invalid filename"))
  else
    let filePath := path_join (baseDir this) filename in
    call (Fs.access filePath) (fun r =>
      match r with
      | Ok _ => callback (Err (new_Error "File already exists"))
      | Err error =>
          if negb (code_is error "ENOENT") then callback (Err error)
          else
            call (Fs.writeFile filePath content) (fun r =>
              match r with
              | Err error => callback (Err error)
              | Ok _ =>
                  fun w =>
                    callback
                      (Ok {| CreateResult.filename := filename;
                             CreateResult.path := path_string filePath;
                             CreateResult.size := js_length content;
                             CreateResult.created := Fs.now w |}) w
              end)
      end).

Definition readFile {X} (this : manager) (filename : jsstring)
    (callback : cbargs ReadResult.t -> task X) : task X :=
  if negb (isValidFilename filename) then
    callback (Err (new_Error "Invalid filename"))
  else
    let filePath := path_join (baseDir this) filename in
    call (Fs.readFile filePath) (fun r =>
      match r with
      | Err error =>
          if code_is error "ENOENT" then
            callback (Err (new_Error "File not found"))
          else callback (Err error)
      | Ok content =>
          call (Fs.stat filePath) (fun r =>
            match r with
            | Err error => callback (Err error)
            | Ok stats =>
                callback
                  (Ok {| ReadResult.filename := filename;
                         ReadResult.content := content;
                         ReadResult.size := size stats;
                         ReadResult.created := birthtime stats;
                         ReadResult.modified := mtime stats |})
            end)
      end).

Definition deleteFile {X} (this : manager) (filename : jsstring)
    (callback : cbargs DeleteResult.t -> task X) : task X :=
  if negb (isValidFilename filename) then
    callback (Err (new_Error "Invalid filename"))
  else
    let filePath := path_join (baseDir this) filename in
    call (Fs.access filePath) (fun r =>
      match r with
      | Err error =>
          if code_is error "ENOENT" then
            callback (Err (new_Error "File not found"))
          else callback (Err error)
      | Ok _ =>
          call (Fs.unlink filePath) (fun r =>
            match r with
            | Err error => callback (Err error)
            | Ok _ =>
                fun w =>
                  callback
                    (Ok {| DeleteResult.filename := filename;
                           DeleteResult.deleted := true;
                           DeleteResult.timestamp := Fs.now w |}) w
            end)
      end).

(** The variables the [stat] callbacks of [listFiles] share. *)
Record locals := {
  completed : Z;
  fileDetails : list FileDetails.t;
  hasError : bool
}.

(** The callback given to [fs.stat] for [filename]: what it does to the
    shared variables, and the task it runs. *)
Definition on_stat {X} (files : list jsstring)
    (callback : cbargs (list FileDetails.t) -> task X)
    (filename : jsstring) (r : cbargs Stats) (l : locals)
    : locals * task X :=
  if hasError l then (l, finished)
  else
    match r with
    | Err error =>
        ({| completed := completed l; fileDetails := fileDetails l;
            hasError := true |},
         callback (Err error))
    | Ok stats =>
        let pushed :=
          fileDetails l ++
          [{| FileDetails.filename := filename;
              FileDetails.size := size stats;
              FileDetails.created := birthtime stats;
              FileDetails.modified := mtime stats |}] in
        let l' := {| completed := completed l + 1; fileDetails := pushed;
                     hasError := hasError l |} in
        (l',
         if completed l' =? Z.of_nat (length files) then
           callback (Ok pushed)
         else finished)
    end.

(** The [stat] callbacks, run in the order the calls complete. *)
Fixpoint run_callbacks {X} (files : list jsstring)
    (callback : cbargs (list FileDetails.t) -> task X)
    (completions : list (jsstring * state Stats)) (l : locals) : task X :=
  match completions with
  | [] => finished
  | (filename, r) :: rest =>
      match r with
      | Pending => run_callbacks files callback rest l
      | Fulfilled stats =>
          let '(l', t) := on_stat files callback filename (Ok stats) l in
          seq t (run_callbacks files callback rest l')
      | Rejected error =>
          let '(l', t) := on_stat files callback filename (Err error) l in
          seq t (run_callbacks files callback rest l')
      end
  end.

(** [files.forEach] starts one [stat] per name, in the order of the array;
    [s] is the order in which they complete. *)
Definition listFiles {X} (this : manager) (s : schedule)
    (callback : cbargs (list FileDetails.t) -> task X) : task X :=
  call (Fs.readdir (baseDir this)) (fun r =>
    match r with
    | Err error => callback (Err error)
    | Ok files =>
        fun w =>
          let '(results, w') :=
            start_all
              (map (fun filename =>
                      Fs.stat (path_join (baseDir this) filename)) files)
              w in
          run_callbacks files callback
            (completion_order s (combine files results))
            {| completed := 0; fileDetails := []; hasError := false |} w'
    end).

End FileManagerCallback.

(** ** [FileManagerPromise] *)

Module FileManagerPromise.
Import Callback Promise.

Definition isValidFilename := Validator.isValidFilename.

Definition createFile (this : manager) (filename content : jsstring)
    : promise CreateResult.t :=
  new_Promise (fun resolve reject =>
    if negb (isValidFilename filename) then
      reject (new_Error "Invalid filename")
    else
      let filePath := path_join (baseDir this) filename in
      call (Fs.access filePath) (fun r =>
        match r with
        | Ok _ => reject (new_Error "File already exists")
        | Err error =>
            if negb (code_is error "ENOENT") then reject error
            else
              call (Fs.writeFile filePath content) (fun r =>
                match r with
                | Err error => reject error
                | Ok _ =>
                    fun w =>
                      resolve
                        {| CreateResult.filename := filename;
                           CreateResult.path := path_string filePath;
                           CreateResult.size := js_length content;
                           CreateResult.created := Fs.now w |} w
                end)
        end)).

Definition readFile (this : manager) (filename : jsstring)
    : promise ReadResult.t :=
  new_Promise (fun resolve reject =>
    if negb (isValidFilename filename) then
      reject (new_Error "Invalid filename")
    else
      let filePath := path_join (baseDir this) filename in
      call (Fs.readFile filePath) (fun r =>
        match r with
        | Err error =>
            if code_is error "ENOENT" then
              reject (new_Error "File not found")
            else reject error
        | Ok content =>
            call (Fs.stat filePath) (fun r =>
              match r with
              | Err error => reject error
              | Ok stats =>
                  resolve
                    {| ReadResult.filename := filename;
                       ReadResult.content := content;
                       ReadResult.size := size stats;
                       ReadResult.created := birthtime stats;
                       ReadResult.modified := mtime stats |}
              end)
        end)).

Definition deleteFile (this : manager) (filename : jsstring)
    : promise DeleteResult.t :=
  new_Promise (fun resolve reject =>
    if negb (isValidFilename filename) then
      reject (new_Error "Invalid filename")
    else
      let filePath := path_join (baseDir this) filename in
      call (Fs.access filePath) (fun r =>
        match r with
        | Err error =>
            if code_is error "ENOENT" then
              reject (new_Error "File not found")
            else reject error
        | Ok _ =>
            call (Fs.unlink filePath) (fun r =>
              match r with
              | Err error => reject error
              | Ok _ =>
                  fun w =>
                    resolve
                      {| DeleteResult.filename := filename;
                         DeleteResult.deleted := true;
                         DeleteResult.timestamp := Fs.now w |} w
              end)
        end)).

(** [s] is the order in which the promises given to [Promise.all]
    settle. *)
Definition listFiles (this : manager) (s : schedule)
    : promise (list FileDetails.t) :=
  new_Promise (fun resolve reject =>
    call (Fs.readdir (baseDir this)) (fun r =>
      match r with
      | Err error => reject error
      | Ok files =>
          let promises :=
            map (fun filename =>
                   let filePath := path_join (baseDir this) filename in
                   new_Promise (fun resolve reject =>
                     call (Fs.stat filePath) (fun r =>
                       match r with
                       | Err error => reject error
                       | Ok stats =>
                           resolve
                             {| FileDetails.filename := filename;
                                FileDetails.size := size stats;
                                FileDetails.created := birthtime stats;
                                FileDetails.modified := mtime stats |}
                       end)))
                files in
          then_catch (all s promises)
            (fun fileDetails => resolve fileDetails)
            reject
      end)).

End FileManagerPromise.

(** ** The request handler ([server.js]) *)

Module Server.
Import Async.
Local Open Scope async_scope.

(** The body of a request: empty, the text of a JSON object (given by its
    fields, which are strings), or a text [JSON.parse] throws on. *)
Inductive body :=
| NoBody
| Json (fields : gmap string jsstring)
| Malformed.

Record request := {
  method : jsstring;
  pathname : jsstring;
  sent : body
}.

(** What is serialized in a response. *)
Inductive payload :=
| Created (r : CreateResult.t)
| Files (files : list FileDetails.t)
| Content (r : ReadResult.t)
| Deleted (r : DeleteResult.t)
| Healthy
| Failed (error : jsstring) (status : Z).

Record response := { statusCode : Z; data : payload }.

(** [parseBody(req)]: [body ? JSON.parse(body) : {}] *)
Definition parseBody (req : request) : promise (gmap string jsstring) :=
  match sent req with
  | NoBody => ret ∅
  | Json fields => ret fields
  | Malformed => throw (new_Error "Invalid JSON")
  end.

(** [sendJsonResponse(res, statusCode, data)] *)
Definition sendJsonResponse (statusCode : Z) (data : payload)
    : promise response :=
  ret {| statusCode := statusCode; data := data |}.

(** [handleError(res, error)] *)
Definition handleError (error : jserror) : promise response :=
  let statusCode :=
    if message_is error "File not found" then 404
    else if message_is error "Invalid filename" then 400
    else if message_is error "File already exists" then 409
    else if message_is error "Invalid JSON" then 400
    else 500 in
  sendJsonResponse statusCode
    (Failed (match message error with
             | [] => js "Internal Server Error"
             | m => m
             end) statusCode).

(** A property of the body that is a non-empty string, i.e. one [!] does
    not negate to [true]. *)
Definition truthy (v : option jsstring) : option jsstring :=
  match v with
  | Some (c :: s) => Some (c :: s)
  | _ => None
  end.

(** The listener given to [http.createServer]; [fileManager] is the
    instance [fileManager.js] exports, [s] the order in which the calls of
    a listing complete. *)
Definition handler (fileManager : manager) (s : schedule) (req : request)
    : promise response :=
  let path := pathname req in
  try_catch
    (if startsWith path (js "/api/files") then
       if js_eqb (method req) (js "POST") && js_eqb path (js "/api/files")
       then
         let* body := parseBody req in
         match truthy (body !! "filename"), truthy (body !! "content") with
         | Some filename, Some content =>
             let* result :=
               FileManager.createFile fileManager filename content in
             sendJsonResponse 201 (Created result)
         | _, _ => throw (new_Error "Filename and content are required")
         end
       else if js_eqb (method req) (js "GET") &&
               js_eqb path (js "/api/files") then
         let* files := FileManager.listFiles fileManager s in
         sendJsonResponse 200 (Files files)
       else if js_eqb (method req) (js "GET") &&
               startsWith path (js "/api/files/") then
         let filename := last_segment [] path in
         let* file := FileManager.readFile fileManager filename in
         sendJsonResponse 200 (Content file)
       else if js_eqb (method req) (js "DELETE") &&
               startsWith path (js "/api/files/") then
         let filename := last_segment [] path in
         let* result := FileManager.deleteFile fileManager filename in
         sendJsonResponse 200 (Deleted result)
       else throw (new_Error "Method not allowed")
     else if js_eqb path (js "/health") then
       sendJsonResponse 200 Healthy
     else throw (new_Error "Not found"))
    (fun error => handleError error).

End Server.

(** ** The failure kinds of the specification *)

Inductive failure_kind :=
| InvalidName
| AlreadyExists
| NotFound
| StorageFailure.

(** The kind of an error, told by its message as [handleError] does. *)
Definition kind_of (error : jserror) : failure_kind :=
  if message_is error "File not found" then NotFound
  else if message_is error "Invalid filename" then InvalidName
  else if message_is error "File already exists" then AlreadyExists
  else StorageFailure.

Definition fails_with {A} (r : state A) (k : failure_kind) : Prop :=
  exists error, r = Rejected error /\ kind_of error = k.

(** A world in which no other process touches the directory. *)
Definition quiet (w : world) : Prop := others w = [].

(** The quiet world after call [c] left the directory as [d]. *)
Definition logged (c : syscall) (d : directory) (w : world) : world :=
  {| entries := d; clock := clock w; calls := calls w ++ [c]; others := [] |}.

(** The world after [createFile(name, c)] was tried for each [c] of
    [contents], in turn. *)
Definition create_attempts (this : manager) (name : jsstring)
    (contents : list jsstring) (w : world) : world :=
  fold_left (fun w c => snd (FileManager.createFile this name c w)) contents w.

(** A code point that is not a surrogate. *)
Definition scalar (cp : Z) : Prop :=
  0 <= cp < 0x110000 /\ ~ (0xD800 <= cp <= 0xDFFF).

(** The record [listFiles] builds for one entry. *)
Definition details_of (filename : jsstring) (stats : Stats) : FileDetails.t :=
  {| FileDetails.filename := filename;
     FileDetails.size := size stats;
     FileDetails.created := birthtime stats;
     FileDetails.modified := mtime stats |}.

(** One record per entry, in the order of the directory. *)
Definition listing (d : directory) : list FileDetails.t :=
  map (fun e => details_of (fst e) (Fs.stats_of (snd e))) d.

(** The quiet world after [stat] was called on each of [names]. *)
Definition stats_logged (this : manager) (names : list jsstring) (w : world)
    : world :=
  fold_left
    (fun w n => logged (SysStat (path_join (baseDir this) n)) (entries w) w)
    names w.

(** The quiet world after a listing. *)
Definition after_listing (this : manager) (w : world) : world :=
  stats_logged this (map fst (entries w))
    (logged (SysReaddir (baseDir this)) (entries w) w).

(** What the caller of the callback variant ends up knowing, and the world
    left. *)
Definition observe {A} (r : list (cbargs A) * world) : state A * world :=
  (Callback.observed (fst r), snd r).

(** ** Sample inputs *)

Module Sample.

Definition fileManager : manager := {| baseDir := js "/srv/app/files" |}.

(** An empty base directory. *)
Definition empty : world :=
  {| entries := []; clock := 1700000000000; calls := []; others := [] |}.

Definition a_txt : jsstring := js "a.txt".
Definition b_txt : jsstring := js "b.txt".

(** A directory holding [a.txt] ("hello") and [b.txt] ("hi"). *)
Definition two_files : world :=
  {| entries := [(a_txt, File (Utf8.encode (js "hello")) 1000 1000);
                 (b_txt, File (Utf8.encode (js "hi")) 2000 2000)];
     clock := 1700000000000; calls := []; others := [] |}.

(** The same directory, where another process removes [a.txt] between the
    first and the second call made. *)
Definition a_txt_vanishes : world :=
  {| entries := entries two_files; clock := clock two_files; calls := [];
     others := [Nothing; Removes a_txt] |}.

(** [POST /api/files] with body [{"filename":"a.txt"}]. *)
Definition post_without_content : Server.request :=
  {| Server.method := js "POST"; Server.pathname := js "/api/files";
     Server.sent := Server.Json {[ "filename" := a_txt ]} |}.

End Sample.

(** ** Notions used to state further properties *)


(** An error made by a call of the file system. *)
Definition fs_error (e : jserror) : Prop :=
  exists call p, e = Fs.ENOENT call p \/ e = Fs.EISDIR call p.


(** The path [/api/files/<name>]. *)
Definition api_file (name : jsstring) : jsstring := js "/api/files/" ++ name.

(** A request without body. *)
Definition bodyless (method : string) (path : jsstring) : Server.request :=
  {| Server.method := js method; Server.pathname := path;
     Server.sent := Server.NoBody |}.

(** [POST /api/files] with a JSON object as body. *)
Definition post (fields : gmap string jsstring) : Server.request :=
  {| Server.method := js "POST"; Server.pathname := js "/api/files";
     Server.sent := Server.Json fields |}.




(** A promise that, in a world no other process touches, leaves the
    directory as it found it. *)
Definition reads_only {A} (p : promise A) : Prop :=
  forall w, quiet w -> quiet (snd (p w)) /\ entries (snd (p w)) = entries w.




(** ** Properties of the string primitives *)

(** [lia] is made to know the quotients and remainders of the UTF-8
    arithmetic. *)
Ltac Zify.zify_post_hook ::= Z.to_euclidean_division_equations.

(** Decides the comparisons of a goal, keeping the cases [lia] cannot
    exclude. *)
Ltac split_comparisons :=
  repeat match goal with
         | |- context [?a <=? ?b] => destruct (Z.leb_spec a b); try lia
         | |- context [?a <? ?b] => destruct (Z.ltb_spec a b); try lia
         | |- context [?a =? ?b] => destruct (Z.eqb_spec a b); try lia
         end.

Lemma startsWith_spec (s p : jsstring) :
  startsWith s p = true <-> Validator.has_prefix s p.
Proof.
  revert s. induction p as [|c p IH]; intros s; simpl.
  - split; [intros _; exists s; reflexivity | reflexivity].
  - destruct s as [|d s].
    + split; [discriminate | intros [rest H]; discriminate].
    + rewrite andb_true_iff, Z.eqb_eq, IH. split.
      * intros [-> [rest ->]]. exists rest. reflexivity.
      * intros [rest H]. injection H as -> ->. split; [reflexivity|].
        exists rest. reflexivity.
Qed.

Lemma includes_spec (s p : jsstring) :
  includes s p = true <-> Validator.has_substring s p.
Proof.
  induction s as [|d s IH]; simpl.
  - rewrite orb_false_r, startsWith_spec. split.
    + intros [rest H]. exists [], rest. exact H.
    + intros [pre [post H]]. destruct pre; [|discriminate].
      exists post. exact H.
  - rewrite orb_true_iff, IH, startsWith_spec. split.
    + intros [[rest H] | [pre [post H]]].
      * exists [], rest. exact H.
      * exists (d :: pre), post. rewrite H. reflexivity.
    + intros [pre [post H]]. destruct pre as [|e pre].
      * left. exists post. exact H.
      * right. injection H as _ H. exists pre, post. exact H.
Qed.

Lemma includes_single (s : jsstring) (c : Z) :
  includes s [c] = true <-> In c s.
Proof.
  rewrite includes_spec. split.
  - intros [pre [post ->]]. apply in_or_app. right. left. reflexivity.
  - intros H. apply in_split in H as [pre [post ->]]. exists pre, post.
    reflexivity.
Qed.

Lemma in_class_spec (c : Z) :
  Validator.in_class c = true <-> Validator.allowed_char c.
Proof.
  unfold Validator.in_class, Validator.allowed_char.
  rewrite !orb_true_iff, !andb_true_iff, !Z.leb_le, !Z.eqb_eq. lia.
Qed.

Lemma regex_test_spec (s : jsstring) :
  Validator.validFilenameRegex_test s = true <->
  s <> [] /\ Forall Validator.allowed_char s.
Proof.
  unfold Validator.validFilenameRegex_test. destruct s as [|c s].
  - split; [discriminate | intros [H _]; contradiction].
  - rewrite forallb_forall, List.Forall_forall. split.
    + intros H. split; [discriminate|]. intros x Hx.
      apply in_class_spec, H, Hx.
    + intros [_ H] x Hx. apply in_class_spec, H, Hx.
Qed.

Lemma js_eqb_refl (a : jsstring) : js_eqb a a = true.
Proof.
  induction a as [|c a IH]; simpl; [reflexivity|]. rewrite Z.eqb_refl.
  exact IH.
Qed.

Lemma js_eqb_eq (a b : jsstring) : js_eqb a b = true <-> a = b.
Proof.
  split; [|intros ->; apply js_eqb_refl].
  revert b. induction a as [|c a IH]; intros [|d b]; simpl; try discriminate.
  - reflexivity.
  - rewrite andb_true_iff, Z.eqb_eq. intros [-> H]. f_equal. apply IH, H.
Qed.

(** ** The UTF-8 encoder and decoder are inverse on well-formed strings *)

Module Utf8Facts.
Import Utf8.

Lemma decode_single (b : Z) (rest : list Z) :
  b <= 0x7F -> decode_from Idle (b :: rest) = b :: decode_from Idle rest.
Proof.
  intros H. cbn [decode_from]. unfold classify. split_comparisons.
  reflexivity.
Qed.

Lemma decode_lead (b : Z) (rest : list Z) n cp lo hi :
  classify b = Lead n cp lo hi ->
  decode_from Idle (b :: rest) = decode_from (Open n cp lo hi) rest.
Proof. intros H. cbn [decode_from]. rewrite H. reflexivity. Qed.

Lemma decode_last (b : Z) (rest : list Z) cp lo hi :
  lo <= b <= hi ->
  decode_from (Open 0 cp lo hi) (b :: rest) =
  units_of_code_point (cp * 64 + b mod 64) ++ decode_from Idle rest.
Proof.
  intros H. cbn [decode_from].
  destruct (Z.leb_spec lo b); [|lia]. destruct (Z.leb_spec b hi); [|lia].
  reflexivity.
Qed.

Lemma decode_more (b : Z) (rest : list Z) n cp lo hi :
  lo <= b <= hi ->
  decode_from (Open (S n) cp lo hi) (b :: rest) =
  decode_from (Open n (cp * 64 + b mod 64) 0x80 0xBF) rest.
Proof.
  intros H. cbn [decode_from].
  destruct (Z.leb_spec lo b); [|lia]. destruct (Z.leb_spec b hi); [|lia].
  reflexivity.
Qed.

Lemma classify_two (b : Z) :
  0xC2 <= b <= 0xDF -> classify b = Lead 0 (b mod 32) 0x80 0xBF.
Proof. intros H. unfold classify. split_comparisons. reflexivity. Qed.

Lemma classify_three (b : Z) :
  0xE0 <= b <= 0xEF ->
  classify b = Lead 1 (b mod 16) (if b =? 0xE0 then 0xA0 else 0x80)
                                 (if b =? 0xED then 0x9F else 0xBF).
Proof.
  intros H. unfold classify.
  destruct (Z.leb_spec b 0x7F); [lia|].
  destruct (Z.leb_spec 0xC2 b); [|lia].
  destruct (Z.leb_spec b 0xDF); [lia|].
  destruct (Z.leb_spec 0xE0 b); [|lia].
  destruct (Z.leb_spec b 0xEF); [|lia].
  reflexivity.
Qed.

Lemma classify_four (b : Z) :
  0xF0 <= b <= 0xF4 ->
  classify b = Lead 2 (b mod 8) (if b =? 0xF0 then 0x90 else 0x80)
                                (if b =? 0xF4 then 0x8F else 0xBF).
Proof.
  intros H. unfold classify.
  destruct (Z.leb_spec b 0x7F); [lia|].
  destruct (Z.leb_spec 0xC2 b); [|lia].
  destruct (Z.leb_spec b 0xDF); [lia|].
  destruct (Z.leb_spec 0xE0 b); [|lia].
  destruct (Z.leb_spec b 0xEF); [lia|].
  destruct (Z.leb_spec 0xF0 b); [|lia].
  destruct (Z.leb_spec b 0xF4); [|lia].
  reflexivity.
Qed.

Lemma decode_encode_code_point (cp : Z) (rest : list Z) :
  scalar cp ->
  decode_from Idle (encode_code_point cp ++ rest) =
  units_of_code_point cp ++ decode_from Idle rest.
Proof.
  intros [Hcp Hsur]. unfold encode_code_point.
  destruct (Z.ltb_spec cp 0x80);
    [|destruct (Z.ltb_spec cp 0x800); [|destruct (Z.ltb_spec cp 0x10000)]];
    cbn [app].
  - rewrite decode_single by lia. unfold units_of_code_point.
    destruct (Z.ltb_spec cp 0x10000); [reflexivity | lia].
  - erewrite decode_lead by (apply classify_two; lia).
    rewrite decode_last by lia. f_equal. f_equal. lia.
  - erewrite decode_lead by (apply classify_three; lia).
    rewrite decode_more by (split_comparisons; lia).
    rewrite decode_last by lia. f_equal. f_equal. lia.
  - erewrite decode_lead by (apply classify_four; lia).
    rewrite decode_more by (split_comparisons; lia).
    rewrite decode_more by lia.
    rewrite decode_last by lia. f_equal. f_equal. lia.
Qed.

Lemma units_of_bmp (u : Z) : u < 0x10000 -> units_of_code_point u = [u].
Proof.
  intros H. unfold units_of_code_point.
  destruct (Z.ltb_spec u 0x10000); [reflexivity | lia].
Qed.

Lemma units_of_pair (u v : Z) :
  is_high u = true -> is_low v = true ->
  units_of_code_point (pair_code_point u v) = [u; v].
Proof.
  unfold is_high, is_low, pair_code_point, units_of_code_point.
  rewrite !andb_true_iff, !Z.leb_le. intros [Hu1 Hu2] [Hv1 Hv2].
  destruct (Z.ltb_spec (65536 + (u - 55296) * 1024 + (v - 56320)) 65536);
    [lia|].
  f_equal; [lia | f_equal; lia].
Qed.

Lemma pair_scalar (u v : Z) :
  is_high u = true -> is_low v = true -> scalar (pair_code_point u v).
Proof.
  unfold is_high, is_low, pair_code_point, scalar.
  rewrite !andb_true_iff, !Z.leb_le. lia.
Qed.

Lemma decode_encode_aux (n : nat) :
  forall s, (length s <= n)%nat -> well_formed s = true ->
            decode (encode s) = s.
Proof.
  unfold decode. induction n as [|n IH]; intros s Hlen Hwf.
  - destruct s; [reflexivity | simpl in Hlen; lia].
  - destruct s as [|u rest]; [reflexivity|].
    cbn [encode well_formed] in *.
    destruct (is_high u) eqn:Hhi.
    + destruct rest as [|v rest']; [discriminate|].
      apply andb_true_iff in Hwf as [Hlo Hwf]. rewrite Hlo.
      rewrite decode_encode_code_point by (apply pair_scalar; assumption).
      rewrite units_of_pair by assumption.
      rewrite IH; [reflexivity | simpl in Hlen; lia | assumption].
    + rewrite !andb_true_iff in Hwf. destruct Hwf as [[[H0 H1] Hlo] Hwf].
      apply negb_true_iff in Hlo. rewrite Hlo.
      apply Z.leb_le in H0. apply Z.ltb_lt in H1.
      unfold is_high, is_low in Hhi, Hlo.
      rewrite decode_encode_code_point.
      * rewrite units_of_bmp by lia.
        rewrite IH; [reflexivity | simpl in Hlen; lia | assumption].
      * apply andb_false_iff in Hhi, Hlo. unfold scalar.
        rewrite !Z.leb_gt in Hhi, Hlo. lia.
Qed.

Lemma decode_encode (s : jsstring) :
  well_formed s = true -> decode (encode s) = s.
Proof. apply (decode_encode_aux (length s)). lia. Qed.

End Utf8Facts.

(** ** Schedules *)

Lemma extract_Permutation {A} (k : nat) (l : list A) (x : A) (r : list A) :
  extract k l = Some (x, r) -> Permutation l (x :: r).
Proof.
  revert k x r. induction l as [|y l IH]; intros k x r; simpl.
  - discriminate.
  - destruct k as [|k].
    + intros [= <- <-]. reflexivity.
    + destruct (extract k l) as [[z r']|] eqn:E; [|discriminate].
      intros [= <- <-]. rewrite (IH k z r' E). apply perm_swap.
Qed.

Lemma extract_in_range {A} (k : nat) (l : list A) :
  (k < length l)%nat -> exists x r, extract k l = Some (x, r).
Proof.
  revert k. induction l as [|y l IH]; intros k; simpl; [lia|].
  destruct k as [|k]; [intros _; eauto|].
  intros H. destruct (IH k) as (x & r & E); [lia|]. rewrite E. eauto.
Qed.

Lemma extract_In {A} (x : A) (l : list A) :
  In x l -> exists k r, (k < length l)%nat /\ extract k l = Some (x, r).
Proof.
  induction l as [|y l IH]; simpl; [intros []|].
  intros [-> | H].
  - exists 0%nat, l. split; [lia | reflexivity].
  - destruct (IH H) as (k & r & Hk & E). exists (S k), (y :: r).
    split; [lia|]. rewrite E. reflexivity.
Qed.

Lemma extract_map {A B} (f : A -> B) (k : nat) (l : list A) :
  extract k (map f l) =
  match extract k l with
  | Some (x, r) => Some (f x, map f r)
  | None => None
  end.
Proof.
  revert k. induction l as [|y l IH]; intros k; simpl; [reflexivity|].
  destruct k as [|k]; [reflexivity|]. rewrite IH.
  destruct (extract k l) as [[z r]|]; reflexivity.
Qed.

Lemma completion_order_aux_Permutation {A} (fuel : nat) (s : schedule)
    (l : list A) :
  length l = fuel -> Permutation (completion_order_aux fuel s l) l.
Proof.
  revert s l. induction fuel as [|fuel IH]; intros s l Hlen; simpl.
  - destruct l; [reflexivity | discriminate].
  - destruct (extract_in_range (hd 0%nat s mod length l) l) as (x & r & E).
    { apply Nat.mod_upper_bound. lia. }
    rewrite E. pose proof (extract_Permutation _ _ _ _ E) as Hperm.
    rewrite Hperm. constructor. apply IH.
    apply Permutation_length in Hperm. simpl in Hperm. lia.
Qed.

(** The calls complete once each. *)
Lemma completion_order_Permutation {A} (s : schedule) (l : list A) :
  Permutation (completion_order s l) l.
Proof. apply completion_order_aux_Permutation. reflexivity. Qed.

(** Every order of completion is the order of some schedule. *)
Lemma completion_order_complete {A} (l l' : list A) :
  Permutation l l' -> exists s, completion_order s l = l'.
Proof.
  unfold completion_order. revert l.
  induction l' as [|x l' IH]; intros l Hperm.
  - apply Permutation_sym, Permutation_nil in Hperm. subst. exists [].
    reflexivity.
  - destruct (extract_In x l) as (k & r & Hk & E).
    { eapply Permutation_in; [symmetry; exact Hperm | left; reflexivity]. }
    pose proof (extract_Permutation _ _ _ _ E) as Hl.
    assert (Hr : Permutation r l').
    { eapply Permutation_cons_inv. rewrite <- Hl. exact Hperm. }
    destruct (IH r Hr) as [s Hs]. exists (k :: s).
    assert (Hlen : length l = S (length r)).
    { apply Permutation_length in Hl. exact Hl. }
    rewrite Hlen. cbn [completion_order_aux hd tl].
    rewrite Nat.mod_small by exact Hk. rewrite E, Hs. reflexivity.
Qed.

Lemma completion_order_map {A B} (f : A -> B) (s : schedule) (l : list A) :
  completion_order s (map f l) = map f (completion_order s l).
Proof.
  unfold completion_order. rewrite length_map.
  generalize (length l). intros fuel. revert s l.
  induction fuel as [|fuel IH]; intros s l; simpl; [reflexivity|].
  rewrite length_map, extract_map.
  destruct (extract (hd 0%nat s mod length l) l) as [[x r]|];
    [|reflexivity].
  simpl. rewrite IH. reflexivity.
Qed.

(** ** File-system calls in a quiet world *)

Module FsFacts.
Import Fs.

Lemma lookup_put_same name x d : lookup name (put name x d) = Some x.
Proof.
  induction d as [|[n y] d IH]; simpl.
  - rewrite js_eqb_refl. reflexivity.
  - destruct (js_eqb n name) eqn:E; simpl; rewrite E; [reflexivity | exact IH].
Qed.

Lemma lookup_remove_same name d : lookup name (remove name d) = None.
Proof.
  induction d as [|[n y] d IH]; simpl; [reflexivity|].
  destruct (js_eqb n name) eqn:E; simpl; [exact IH|]. rewrite E. exact IH.
Qed.

Lemma code_is_ENOENT call p : code_is (ENOENT call p) "ENOENT" = true.
Proof. reflexivity. Qed.


Lemma quiet_logged c d w : quiet (logged c d w).
Proof. reflexivity. Qed.

Lemma serve_quiet {A} c (f : directory -> Z -> state A * directory) w :
  quiet w ->
  serve c f w =
  (fst (f (entries w) (clock w)), logged c (snd (f (entries w) (clock w))) w).
Proof.
  unfold quiet, serve. intros ->. cbn [disturb].
  destruct (f (entries w) (clock w)). reflexivity.
Qed.

Lemma access_quiet p w :
  quiet w ->
  access p w =
  (match lookup (basename p) (entries w) with
   | Some _ => Fulfilled tt
   | None => Rejected (ENOENT "access" p)
   end, logged (SysAccess p) (entries w) w).
Proof.
  intros H. unfold access. rewrite serve_quiet by exact H.
  destruct (lookup (basename p) (entries w)); reflexivity.
Qed.

Lemma writeFile_quiet p content w :
  quiet w ->
  writeFile p content w =
  match lookup (basename p) (entries w) with
  | Some (Directory _) =>
      (Rejected (EISDIR "open" p),
       logged (SysWriteFile p (Utf8.encode content)) (entries w) w)
  | old =>
      (Fulfilled tt,
       logged (SysWriteFile p (Utf8.encode content))
         (put (basename p) (written old (Utf8.encode content) (clock w))
            (entries w)) w)
  end.
Proof.
  intros H. unfold writeFile. rewrite serve_quiet by exact H.
  destruct (lookup (basename p) (entries w)) as [[]|]; reflexivity.
Qed.

Lemma readFile_quiet p w :
  quiet w ->
  readFile p w =
  (match lookup (basename p) (entries w) with
   | Some (File bytes _ _) => Fulfilled (Utf8.decode bytes)
   | Some (Directory _) => Rejected (EISDIR "read" p)
   | None => Rejected (ENOENT "open" p)
   end, logged (SysReadFile p) (entries w) w).
Proof.
  intros H. unfold readFile. rewrite serve_quiet by exact H.
  destruct (lookup (basename p) (entries w)) as [[]|]; reflexivity.
Qed.

Lemma stat_quiet p w :
  quiet w ->
  stat p w =
  (match lookup (basename p) (entries w) with
   | Some x => Fulfilled (stats_of x)
   | None => Rejected (ENOENT "stat" p)
   end, logged (SysStat p) (entries w) w).
Proof.
  intros H. unfold stat. rewrite serve_quiet by exact H.
  destruct (lookup (basename p) (entries w)); reflexivity.
Qed.

Lemma unlink_quiet p w :
  quiet w ->
  unlink p w =
  match lookup (basename p) (entries w) with
  | Some (File _ _ _) =>
      (Fulfilled tt, logged (SysUnlink p) (remove (basename p) (entries w)) w)
  | Some (Directory _) =>
      (Rejected (EISDIR "unlink" p), logged (SysUnlink p) (entries w) w)
  | None => (Rejected (ENOENT "unlink" p), logged (SysUnlink p) (entries w) w)
  end.
Proof.
  intros H. unfold unlink. rewrite serve_quiet by exact H.
  destruct (lookup (basename p) (entries w)) as [[]|]; reflexivity.
Qed.

Lemma readdir_quiet dir w :
  quiet w ->
  readdir dir w =
  (Fulfilled (map fst (entries w)), logged (SysReaddir dir) (entries w) w).
Proof.
  intros H. unfold readdir. rewrite serve_quiet by exact H. reflexivity.
Qed.

End FsFacts.

#[local] Hint Resolve FsFacts.quiet_logged : core.

Module FileManagerFacts.
Import FileManager Async.

Section Quiet.
Variable this : manager.
Variable name : jsstring.
Variable w : world.
Hypothesis Hvalid : Validator.isValidFilename name = true.
Hypothesis Hquiet : quiet w.

Let filePath := path_join (baseDir this) name.

Lemma createFile_absent content :
  Fs.lookup name (entries w) = None ->
  createFile this name content w =
  (Fulfilled {| CreateResult.filename := name;
                CreateResult.path := path_string filePath;
                CreateResult.size := js_length content;
                CreateResult.created := clock w |},
   logged (SysWriteFile filePath (Utf8.encode content))
     (Fs.put name (File (Utf8.encode content) (clock w) (clock w)) (entries w))
     (logged (SysAccess filePath) (entries w) w)).
Proof.
  intros Habsent. unfold createFile, try_catch, bind, isValidFilename.
  rewrite Hvalid. cbn [negb].
  rewrite FsFacts.access_quiet by assumption.
  cbn [basename path_join]. rewrite Habsent.
  unfold throw at 1 2. rewrite FsFacts.code_is_ENOENT. cbn [negb].
  unfold ret at 1.
  rewrite FsFacts.writeFile_quiet by auto.
  cbn [basename path_join entries logged]. rewrite Habsent.
  reflexivity.
Qed.

Lemma createFile_present content x :
  Fs.lookup name (entries w) = Some x ->
  createFile this name content w =
  (Rejected (new_Error "File already exists"),
   logged (SysAccess filePath) (entries w) w).
Proof.
  intros Hpresent. unfold createFile, try_catch, bind, isValidFilename.
  rewrite Hvalid. cbn [negb].
  rewrite FsFacts.access_quiet by assumption.
  cbn [basename path_join]. rewrite Hpresent. reflexivity.
Qed.

Lemma readFile_file bytes born modified :
  Fs.lookup name (entries w) = Some (File bytes born modified) ->
  readFile this name w =
  (Fulfilled {| ReadResult.filename := name;
                ReadResult.content := Utf8.decode bytes;
                ReadResult.size := Z.of_nat (length bytes);
                ReadResult.created := born;
                ReadResult.modified := modified |},
   logged (SysStat filePath) (entries w)
     (logged (SysReadFile filePath) (entries w) w)).
Proof.
  intros Hfile. unfold readFile, try_catch, bind, isValidFilename.
  rewrite Hvalid. cbn [negb].
  rewrite FsFacts.readFile_quiet by assumption.
  cbn [basename path_join]. rewrite Hfile.
  rewrite FsFacts.stat_quiet by auto.
  cbn [basename path_join entries logged]. rewrite Hfile. reflexivity.
Qed.

Lemma readFile_absent :
  Fs.lookup name (entries w) = None ->
  readFile this name w =
  (Rejected (new_Error "File not found"),
   logged (SysReadFile filePath) (entries w) w).
Proof.
  intros Habsent. unfold readFile, try_catch, bind, isValidFilename.
  rewrite Hvalid. cbn [negb].
  rewrite FsFacts.readFile_quiet by assumption.
  cbn [basename path_join]. rewrite Habsent.
  rewrite FsFacts.code_is_ENOENT. reflexivity.
Qed.

Lemma deleteFile_file bytes born modified :
  Fs.lookup name (entries w) = Some (File bytes born modified) ->
  deleteFile this name w =
  (Fulfilled {| DeleteResult.filename := name;
                DeleteResult.deleted := true;
                DeleteResult.timestamp := clock w |},
   logged (SysUnlink filePath) (Fs.remove name (entries w))
     (logged (SysAccess filePath) (entries w) w)).
Proof.
  intros Hfile. unfold deleteFile, try_catch, bind, isValidFilename.
  rewrite Hvalid. cbn [negb].
  rewrite FsFacts.access_quiet by assumption.
  cbn [basename path_join]. rewrite Hfile.
  rewrite FsFacts.unlink_quiet by auto.
  cbn [basename path_join entries logged]. rewrite Hfile. reflexivity.
Qed.

Lemma deleteFile_absent :
  Fs.lookup name (entries w) = None ->
  deleteFile this name w =
  (Rejected (new_Error "File not found"),
   logged (SysAccess filePath) (entries w) w).
Proof.
  intros Habsent. unfold deleteFile, try_catch, bind, isValidFilename.
  rewrite Hvalid. cbn [negb].
  rewrite FsFacts.access_quiet by assumption.
  cbn [basename path_join]. rewrite Habsent.
  rewrite FsFacts.code_is_ENOENT. reflexivity.
Qed.

End Quiet.
End FileManagerFacts.


(** ** The validator *)

Lemma js_length_positive (s : jsstring) :
  (js_length s >? 0) = true <-> s <> [].
Proof.
  unfold js_length. destruct s; simpl.
  - split; [discriminate | intros H; contradiction].
  - split; [discriminate | reflexivity].
Qed.

Lemma isValidFilename_iff (s : jsstring) :
  Validator.isValidFilename s = true <-> Validator.spec_valid s.
Proof.
  unfold Validator.isValidFilename, Validator.spec_valid.
  rewrite !andb_true_iff, !negb_true_iff, regex_test_spec, js_length_positive.
  rewrite Z.leb_le.
  change (js "/") with [47]. change (js "\") with [92].
  rewrite <- !not_true_iff_false.
  rewrite includes_spec, startsWith_spec, !includes_single.
  unfold js_length. split.
  - intros [[[[[[[Hne Hall] _] Hlen] Hdots] Hdot] Hslash] Hback].
    repeat split; try assumption. lia.
  - intros (Hne & Hlen & Hall & Hdots & Hdot & Hslash & Hback).
    repeat split; try assumption. lia.
Qed.

(** C2.  The validator, a total function to [bool], accepts a string exactly
    when it is non-empty, has at most 255 characters, all of them in
    [[A-Za-z0-9-_.]], does not contain [".."], does not start with ["."] and
    contains neither ['/'] nor ['\']; in particular it rejects every string
    that contains ['/'], ['\'] or [".."], starts with ["."], is empty or is
    longer than 255 characters. *)
Theorem isValidFilename_spec (s : jsstring) :
  (Validator.isValidFilename s = true <-> Validator.spec_valid s) /\
  (In 47 s \/ In 92 s \/ Validator.has_substring s (js "..") \/
   Validator.has_prefix s (js ".") \/ s = [] \/ (255 < length s)%nat ->
   Validator.isValidFilename s = false).
Proof.
  split; [apply isValidFilename_iff|].
  intros Hbad. apply not_true_iff_false. rewrite isValidFilename_iff.
  intros (Hne & Hlen & _ & Hdots & Hdot & Hslash & Hback).
  destruct Hbad as [H | [H | [H | [H | [H | H]]]]];
    [exact (Hslash H) | exact (Hback H) | exact (Hdots H) | exact (Hdot H)
    | exact (Hne H) | lia].
Qed.

(** ** Create, read and delete in a quiet world *)

(** C3.  For a valid name that is absent from the directory and a content
    whose surrogates are paired, [createFile] followed by [readFile] succeeds,
    returns the content unchanged and reports as size the length of its UTF-8
    encoding. *)
Theorem create_then_read (this : manager) (name content : jsstring)
    (w : world) :
  Validator.isValidFilename name = true ->
  Utf8.well_formed content = true ->
  Fs.lookup name (entries w) = None ->
  quiet w ->
  exists created w1 file w2,
    FileManager.createFile this name content w = (Fulfilled created, w1) /\
    FileManager.readFile this name w1 = (Fulfilled file, w2) /\
    ReadResult.content file = content /\
    ReadResult.size file = Utf8.byteLength content.
Proof.
  intros Hvalid Hwf Habsent Hquiet. do 4 eexists.
  split; [apply FileManagerFacts.createFile_absent; assumption|].
  split.
  - apply FileManagerFacts.readFile_file; [assumption | reflexivity |].
    cbn [entries logged]. apply FsFacts.lookup_put_same.
  - cbn [ReadResult.content ReadResult.size]. split.
    + apply Utf8Facts.decode_encode, Hwf.
    + reflexivity.
Qed.

Lemma create_then_read_witness :
  Validator.isValidFilename Sample.a_txt = true /\
  Utf8.well_formed [104; 0xE9; 0xD83D; 0xDE00] = true /\
  Fs.lookup Sample.a_txt (entries Sample.empty) = None /\
  quiet Sample.empty /\
  exists created w1 file w2,
    FileManager.createFile Sample.fileManager Sample.a_txt
      [104; 0xE9; 0xD83D; 0xDE00] Sample.empty = (Fulfilled created, w1) /\
    FileManager.readFile Sample.fileManager Sample.a_txt w1 =
      (Fulfilled file, w2) /\
    ReadResult.content file = [104; 0xE9; 0xD83D; 0xDE00] /\
    ReadResult.size file = Utf8.byteLength [104; 0xE9; 0xD83D; 0xDE00].
Proof.
  split; [reflexivity|]. split; [reflexivity|]. split; [reflexivity|].
  split; [reflexivity|].
  apply (create_then_read Sample.fileManager Sample.a_txt
           [104; 0xE9; 0xD83D; 0xDE00] Sample.empty); reflexivity.
Defined.

(** C3, as stated for every content string, fails on a content with an
    unpaired surrogate: the file holds the bytes of U+FFFD, which is what
    [readFile] returns. *)
Lemma create_then_read_unpaired_surrogate :
  Validator.isValidFilename Sample.a_txt = true /\
  Fs.lookup Sample.a_txt (entries Sample.empty) = None /\
  quiet Sample.empty /\
  (exists created w1 file w2,
      FileManager.createFile Sample.fileManager Sample.a_txt [0xD800]
        Sample.empty = (Fulfilled created, w1) /\
      FileManager.readFile Sample.fileManager Sample.a_txt w1 =
        (Fulfilled file, w2) /\
      ReadResult.content file = [0xFFFD]) /\
  ~ (exists created w1 file w2,
        FileManager.createFile Sample.fileManager Sample.a_txt [0xD800]
          Sample.empty = (Fulfilled created, w1) /\
        FileManager.readFile Sample.fileManager Sample.a_txt w1 =
          (Fulfilled file, w2) /\
        ReadResult.content file = [0xD800] /\
        ReadResult.size file = Utf8.byteLength [0xD800]).
Proof.
  split; [reflexivity|]. split; [reflexivity|]. split; [reflexivity|].
  split.
  - do 4 eexists. split; [vm_compute; reflexivity|].
    split; [vm_compute; reflexivity | reflexivity].
  - intros (created & w1 & file & w2 & Hcreate & Hread & Hcontent & _).
    vm_compute in Hcreate. injection Hcreate as <- <-.
    vm_compute in Hread. injection Hread as <- _.
    discriminate Hcontent.
Qed.

(** On a content of ASCII characters the number of code units is the number
    of bytes written. *)
Lemma byteLength_ascii (s : jsstring) :
  List.Forall (fun u => 0 <= u < 0x80) s -> Utf8.byteLength s = js_length s.
Proof.
  unfold Utf8.byteLength, js_length. intros H. f_equal.
  induction H as [|u s Hu _ IH]; [reflexivity|].
  cbn [Utf8.encode]. unfold Utf8.is_high, Utf8.is_low, Utf8.encode_code_point.
  split_comparisons. cbn [andb app length]. rewrite IH. reflexivity.
Qed.

(** C4.  [createFile] reports [content.length], the number of UTF-16 code
    units: for the content ["é"] it reports 1 where the file written, and the
    size [readFile] reports for it, is 2 bytes. *)
Theorem create_size_is_code_unit_count :
  exists created w1 file w2,
    FileManager.createFile Sample.fileManager Sample.a_txt [0xE9]
      Sample.empty = (Fulfilled created, w1) /\
    CreateResult.size created = 1 /\
    Utf8.byteLength [0xE9] = 2 /\
    FileManager.readFile Sample.fileManager Sample.a_txt w1 =
      (Fulfilled file, w2) /\
    ReadResult.size file = 2.
Proof.
  do 4 eexists. split; [vm_compute; reflexivity|].
  split; [reflexivity|]. split; [reflexivity|].
  split; [vm_compute; reflexivity | reflexivity].
Qed.

Lemma fails_with_message {A} (msg : string) (k : failure_kind) :
  kind_of (new_Error msg) = k -> @fails_with A (Rejected (new_Error msg)) k.
Proof. intros H. exists (new_Error msg). split; [reflexivity | exact H]. Qed.

Lemma create_attempts_present (this : manager) (name : jsstring)
    (contents : list jsstring) (w : world) (x : node) :
  Validator.isValidFilename name = true ->
  quiet w ->
  Fs.lookup name (entries w) = Some x ->
  quiet (create_attempts this name contents w) /\
  entries (create_attempts this name contents w) = entries w.
Proof.
  intros Hvalid. unfold create_attempts. revert w.
  induction contents as [|c contents IH]; intros w Hquiet Hpresent.
  - split; [exact Hquiet | reflexivity].
  - cbn [fold_left].
    rewrite (FileManagerFacts.createFile_present this name w Hvalid Hquiet c x)
      by exact Hpresent.
    cbn [snd].
    destruct (IH (logged (SysAccess (path_join (baseDir this) name))
                    (entries w) w)) as [Hq He];
      [reflexivity | exact Hpresent |].
    split; [exact Hq | exact He].
Qed.

(** C5.  For a valid name, in worlds no other process touches: where an
    entry of that name exists, [createFile] fails with [AlreadyExists] and
    leaves the directory as it was, after any number of earlier attempts;
    where none exists, [readFile] and [deleteFile] fail with [NotFound], and
    after a successful [createFile] a first [deleteFile] succeeds and a second
    one fails with [NotFound]. *)
Theorem create_and_delete_failures (this : manager) (name : jsstring)
    (w_has w_lacks : world) (x : node) :
  Validator.isValidFilename name = true ->
  quiet w_has ->
  Fs.lookup name (entries w_has) = Some x ->
  quiet w_lacks ->
  Fs.lookup name (entries w_lacks) = None ->
  (forall contents content,
      fails_with
        (fst (FileManager.createFile this name content
                (create_attempts this name contents w_has)))
        AlreadyExists /\
      entries
        (snd (FileManager.createFile this name content
                (create_attempts this name contents w_has))) =
        entries w_has) /\
  fails_with (fst (FileManager.readFile this name w_lacks)) NotFound /\
  fails_with (fst (FileManager.deleteFile this name w_lacks)) NotFound /\
  (forall content,
      exists created w1 deleted w2,
        FileManager.createFile this name content w_lacks =
          (Fulfilled created, w1) /\
        FileManager.deleteFile this name w1 = (Fulfilled deleted, w2) /\
        DeleteResult.deleted deleted = true /\
        Fs.lookup name (entries w2) = None /\
        fails_with (fst (FileManager.deleteFile this name w2)) NotFound).
Proof.
  intros Hvalid Hq1 Hpresent Hq2 Habsent.
  split; [|split; [|split]].
  - intros contents content.
    destruct (create_attempts_present this name contents w_has x Hvalid Hq1
                Hpresent) as [Hq He].
    rewrite (FileManagerFacts.createFile_present this name _ Hvalid Hq content
               x)
      by (rewrite He; exact Hpresent).
    split; [apply fails_with_message; reflexivity | exact He].
  - rewrite FileManagerFacts.readFile_absent by assumption.
    apply fails_with_message. reflexivity.
  - rewrite FileManagerFacts.deleteFile_absent by assumption.
    apply fails_with_message. reflexivity.
  - intros content. do 4 eexists.
    split; [apply FileManagerFacts.createFile_absent; assumption|].
    split.
    { eapply FileManagerFacts.deleteFile_file; [assumption | reflexivity |].
      cbn [entries logged]. apply FsFacts.lookup_put_same. }
    split; [reflexivity|].
    split; [cbn [entries logged]; apply FsFacts.lookup_remove_same|].
    rewrite FileManagerFacts.deleteFile_absent;
      [apply fails_with_message; reflexivity | assumption | reflexivity |].
    cbn [entries logged]. apply FsFacts.lookup_remove_same.
Qed.

Lemma create_and_delete_failures_witness :
  Validator.isValidFilename Sample.a_txt = true /\
  quiet Sample.two_files /\
  Fs.lookup Sample.a_txt (entries Sample.two_files) =
    Some (File (Utf8.encode (js "hello")) 1000 1000) /\
  quiet Sample.empty /\
  Fs.lookup Sample.a_txt (entries Sample.empty) = None /\
  (forall contents content,
      fails_with
        (fst (FileManager.createFile Sample.fileManager Sample.a_txt content
                (create_attempts Sample.fileManager Sample.a_txt contents
                   Sample.two_files)))
        AlreadyExists /\
      entries
        (snd (FileManager.createFile Sample.fileManager Sample.a_txt content
                (create_attempts Sample.fileManager Sample.a_txt contents
                   Sample.two_files))) =
        entries Sample.two_files) /\
  fails_with
    (fst (FileManager.readFile Sample.fileManager Sample.a_txt Sample.empty))
    NotFound /\
  fails_with
    (fst (FileManager.deleteFile Sample.fileManager Sample.a_txt Sample.empty))
    NotFound /\
  (forall content,
      exists created w1 deleted w2,
        FileManager.createFile Sample.fileManager Sample.a_txt content
          Sample.empty = (Fulfilled created, w1) /\
        FileManager.deleteFile Sample.fileManager Sample.a_txt w1 =
          (Fulfilled deleted, w2) /\
        DeleteResult.deleted deleted = true /\
        Fs.lookup Sample.a_txt (entries w2) = None /\
        fails_with
          (fst (FileManager.deleteFile Sample.fileManager Sample.a_txt w2))
          NotFound).
Proof.
  split; [reflexivity|]. split; [reflexivity|]. split; [reflexivity|].
  split; [reflexivity|]. split; [reflexivity|].
  apply (create_and_delete_failures Sample.fileManager Sample.a_txt
           Sample.two_files Sample.empty
           (File (Utf8.encode (js "hello")) 1000 1000)); reflexivity.
Defined.

(** ** Invalid names *)

(** C6.  For a name the validator rejects, [createFile], [readFile] and
    [deleteFile] fail with [InvalidName] and leave the world as it was: no
    file-system call is made (the list of calls is unchanged) and no entry is
    written, in any directory. *)
Theorem invalid_name_rejected (this : manager) (name content : jsstring)
    (w : world) :
  Validator.isValidFilename name = false ->
  (fails_with (fst (FileManager.createFile this name content w)) InvalidName /\
   snd (FileManager.createFile this name content w) = w) /\
  (fails_with (fst (FileManager.readFile this name w)) InvalidName /\
   snd (FileManager.readFile this name w) = w) /\
  (fails_with (fst (FileManager.deleteFile this name w)) InvalidName /\
   snd (FileManager.deleteFile this name w) = w).
Proof.
  intros Hinvalid.
  unfold FileManager.createFile, FileManager.readFile, FileManager.deleteFile,
    FileManager.isValidFilename, Async.try_catch.
  rewrite Hinvalid. cbn [negb Async.throw fst snd].
  change (code_is (new_Error "Invalid filename") "ENOENT") with false.
  cbn [Async.throw fst snd].
  repeat split; apply fails_with_message; reflexivity.
Qed.

Lemma invalid_name_rejected_witness :
  Validator.isValidFilename (js "../etc/passwd") = false /\
  (fails_with
     (fst (FileManager.createFile Sample.fileManager (js "../etc/passwd")
             (js "x") Sample.two_files)) InvalidName /\
   snd (FileManager.createFile Sample.fileManager (js "../etc/passwd")
          (js "x") Sample.two_files) = Sample.two_files) /\
  (fails_with
     (fst (FileManager.readFile Sample.fileManager (js "../etc/passwd")
             Sample.two_files)) InvalidName /\
   snd (FileManager.readFile Sample.fileManager (js "../etc/passwd")
          Sample.two_files) = Sample.two_files) /\
  (fails_with
     (fst (FileManager.deleteFile Sample.fileManager (js "../etc/passwd")
             Sample.two_files)) InvalidName /\
   snd (FileManager.deleteFile Sample.fileManager (js "../etc/passwd")
          Sample.two_files) = Sample.two_files).
Proof.
  split; [reflexivity|].
  apply (invalid_name_rejected Sample.fileManager (js "../etc/passwd")
           (js "x") Sample.two_files).
  reflexivity.
Defined.

(** ** A file removed between the read and the stat of [readFile] *)

Lemma serve_disturbed {A} (c : syscall)
    (f : directory -> Z -> state A * directory) (w : world)
    (i : interference) (later : list interference) :
  others w = i :: later ->
  Fs.serve c f w =
  (fst (f (Fs.disturb i (clock w) (entries w)) (clock w)),
   {| entries := snd (f (Fs.disturb i (clock w) (entries w)) (clock w));
      clock := clock w; calls := calls w ++ [c]; others := later |}).
Proof.
  unfold Fs.serve. intros ->.
  destruct (f (Fs.disturb i (clock w) (entries w)) (clock w)). reflexivity.
Qed.

(** The two calls of [readFile] when the file is there for the first and
    gone for the second. *)
Lemma read_then_stat_vanished (p : filepath) (w : world)
    (bytes : list Z) (born modified : Z) (later : list interference) :
  Fs.lookup (basename p) (entries w) = Some (File bytes born modified) ->
  others w = Nothing :: Removes (basename p) :: later ->
  exists w1 w2,
    Fs.readFile p w = (Fulfilled (Utf8.decode bytes), w1) /\
    Fs.stat p w1 = (Rejected (Fs.ENOENT "stat" p), w2).
Proof.
  intros Hfile Hothers. do 2 eexists. split.
  - unfold Fs.readFile. rewrite (serve_disturbed _ _ _ _ _ Hothers).
    cbn [Fs.disturb]. rewrite Hfile. reflexivity.
  - unfold Fs.stat. erewrite serve_disturbed by reflexivity.
    cbn [Fs.disturb entries clock]. rewrite FsFacts.lookup_remove_same.
    reflexivity.
Qed.

(** C7.  When the file is removed between the two calls of [readFile], the
    async variant fails with [NotFound]; the callback and the promise variant
    pass on the error of [fs.stat], whose code is [ENOENT] and whose message
    is not ['File not found']: a [StorageFailure]. *)
Theorem read_race_not_found_only_in_async (this : manager) (name : jsstring)
    (w : world) (bytes : list Z) (born modified : Z)
    (later : list interference) :
  Validator.isValidFilename name = true ->
  Fs.lookup name (entries w) = Some (File bytes born modified) ->
  others w = Nothing :: Removes name :: later ->
  fails_with (fst (FileManagerAsync.readFile this name w)) NotFound /\
  (exists error,
      Callback.observed
        (fst (FileManagerCallback.readFile this name Callback.record w)) =
        Rejected error /\
      code_is error "ENOENT" = true /\ kind_of error = StorageFailure) /\
  (exists error,
      fst (FileManagerPromise.readFile this name w) = Rejected error /\
      code_is error "ENOENT" = true /\ kind_of error = StorageFailure).
Proof.
  intros Hvalid Hfile Hothers.
  destruct (read_then_stat_vanished (path_join (baseDir this) name) w bytes
              born modified later Hfile Hothers) as (w1 & w2 & Hread & Hstat).
  split; [|split].
  - unfold FileManagerAsync.readFile, FileManager.isValidFilename,
      Async.try_catch, Async.bind.
    rewrite Hvalid. cbn [negb]. rewrite Hread, Hstat.
    rewrite FsFacts.code_is_ENOENT. apply fails_with_message. reflexivity.
  - exists (Fs.ENOENT "stat" (path_join (baseDir this) name)).
    unfold FileManagerCallback.readFile, FileManagerCallback.isValidFilename,
      Callback.call.
    rewrite Hvalid. cbn [negb]. rewrite Hread, Hstat.
    split; [reflexivity|]. split; reflexivity.
  - exists (Fs.ENOENT "stat" (path_join (baseDir this) name)).
    unfold FileManagerPromise.readFile, FileManagerPromise.isValidFilename,
      Promise.new_Promise, Callback.call.
    rewrite Hvalid. cbn [negb]. rewrite Hread, Hstat.
    split; [reflexivity|]. split; reflexivity.
Qed.

Lemma read_race_not_found_only_in_async_witness :
  Validator.isValidFilename Sample.a_txt = true /\
  Fs.lookup Sample.a_txt (entries Sample.a_txt_vanishes) =
    Some (File (Utf8.encode (js "hello")) 1000 1000) /\
  others Sample.a_txt_vanishes = [Nothing; Removes Sample.a_txt] /\
  fails_with
    (fst (FileManagerAsync.readFile Sample.fileManager Sample.a_txt
            Sample.a_txt_vanishes)) NotFound /\
  (exists error,
      Callback.observed
        (fst (FileManagerCallback.readFile Sample.fileManager Sample.a_txt
                Callback.record Sample.a_txt_vanishes)) = Rejected error /\
      code_is error "ENOENT" = true /\ kind_of error = StorageFailure) /\
  (exists error,
      fst (FileManagerPromise.readFile Sample.fileManager Sample.a_txt
             Sample.a_txt_vanishes) = Rejected error /\
      code_is error "ENOENT" = true /\ kind_of error = StorageFailure).
Proof.
  split; [reflexivity|]. split; [reflexivity|]. split; [reflexivity|].
  apply (read_race_not_found_only_in_async Sample.fileManager Sample.a_txt
           Sample.a_txt_vanishes (Utf8.encode (js "hello")) 1000 1000 []);
    reflexivity.
Defined.

(** ** Listing *)

Lemma extract_Forall {A} (P : A -> Prop) (k : nat) (l : list A) (x : A)
    (r : list A) :
  List.Forall P l -> extract k l = Some (x, r) -> P x /\ List.Forall P r.
Proof.
  revert k x r. induction l as [|y l IH]; intros k x r Hall; simpl.
  - discriminate.
  - inversion Hall as [|? ? Hy Hl]; subst. destruct k as [|k].
    + intros [= -> ->]. split; assumption.
    + destruct (extract k l) as [[z r']|] eqn:E; [|discriminate].
      intros [= <- <-]. destruct (IH k z r' Hl E) as [Hz Hr].
      split; [exact Hz | constructor; assumption].
Qed.

(** What completes is what was started. *)
Lemma completion_order_Forall {A} (P : A -> Prop) (s : schedule) (l : list A) :
  List.Forall P l -> List.Forall P (completion_order s l).
Proof.
  unfold completion_order. generalize (length l) at 1. intros fuel.
  revert s l. induction fuel as [|fuel IH]; intros s l Hall; simpl.
  - constructor.
  - destruct (extract (hd 0%nat s mod length l) l) as [[x r]|] eqn:E.
    + destruct (extract_Forall P _ _ _ _ Hall E) as [Hx Hr].
      constructor; [exact Hx | apply IH, Hr].
    + constructor.
Qed.

Lemma first_rejection_fulfilled {A} (l : list (state A)) :
  List.Forall (fun r => exists v, r = Fulfilled v) l ->
  Promise.first_rejection l = None.
Proof.
  induction 1 as [|r l [v ->] _ IH]; simpl; [reflexivity | exact IH].
Qed.

Lemma values_fulfilled {A} (vs : list A) :
  Promise.values (map Fulfilled vs) = Some vs.
Proof.
  induction vs as [|v vs IH]; simpl; [reflexivity|]. rewrite IH. reflexivity.
Qed.

(** [Promise.all] of promises that are all fulfilled is fulfilled with their
    values in the order of the array, whatever the order they settle in. *)
Lemma all_state_fulfilled {A} (s : schedule) (vs : list A) :
  Promise.all_state s (map Fulfilled vs) = Fulfilled vs.
Proof.
  unfold Promise.all_state. rewrite first_rejection_fulfilled.
  - rewrite values_fulfilled. reflexivity.
  - apply completion_order_Forall. apply List.Forall_forall.
    intros r Hr. apply filter_In in Hr as [Hr _].
    apply in_map_iff in Hr as [v [<- _]]. exists v. reflexivity.
Qed.

Lemma lookup_listed (n : jsstring) (d : directory) :
  In n (map fst d) -> Fs.lookup n d <> None.
Proof.
  induction d as [|[m x] d IH]; simpl; [intros []|].
  destruct (js_eqb m n) eqn:E; [discriminate|].
  intros [-> | H]; [rewrite js_eqb_refl in E; discriminate | apply IH, H].
Qed.

(** The [stat] calls of a listing, started in a quiet world on names that
    are all in the directory: each is fulfilled, and the directory is left as
    it was. *)
Lemma start_stats_quiet (this : manager) (names : list jsstring) (w : world) :
  quiet w ->
  (forall n, In n names -> Fs.lookup n (entries w) <> None) ->
  exists details w',
    start_all
      (map (fun filename =>
              Async.bind (Fs.stat (path_join (baseDir this) filename))
                (fun stats =>
                   Async.ret
                     {| FileDetails.filename := filename;
                        FileDetails.size := size stats;
                        FileDetails.created := birthtime stats;
                        FileDetails.modified := mtime stats |}))
           names) w = (map Fulfilled details, w') /\
    map FileDetails.filename details = names /\
    quiet w' /\ entries w' = entries w.
Proof.
  revert w. induction names as [|n names IH]; intros w Hquiet Hin.
  - exists [], w. repeat split. exact Hquiet.
  - cbn [map start_all]. unfold Async.bind at 1.
    rewrite FsFacts.stat_quiet by exact Hquiet. cbn [basename path_join].
    destruct (Fs.lookup n (entries w)) as [x|] eqn:E;
      [|exfalso; apply (Hin n); [left; reflexivity | exact E]].
    cbn [Async.ret].
    destruct (IH (logged (SysStat (path_join (baseDir this) n)) (entries w) w))
      as (details & w' & Hrun & Hnames & Hq & He).
    + reflexivity.
    + intros m Hm. cbn [entries logged]. apply Hin. right. exact Hm.
    + rewrite Hrun.
      exists ({| FileDetails.filename := n;
                 FileDetails.size := size (Fs.stats_of x);
                 FileDetails.created := birthtime (Fs.stats_of x);
                 FileDetails.modified := mtime (Fs.stats_of x) |} :: details),
        w'.
      split; [reflexivity|]. split; [cbn; rewrite Hnames; reflexivity|].
      split; [exact Hq | exact He].
Qed.

(** In a quiet world the listing of [FileManager] is fulfilled with one record
    per entry, in the order [readdir] enumerates them, and both the result and
    the world left are the same for every order of completion. *)
Lemma FileManager_listFiles_stable (this : manager) (s1 s2 : schedule)
    (w : world) :
  quiet w ->
  FileManager.listFiles this s1 w = FileManager.listFiles this s2 w /\
  exists files w',
    FileManager.listFiles this s1 w = (Fulfilled files, w') /\
    map FileDetails.filename files = map fst (entries w).
Proof.
  intros Hquiet.
  destruct (start_stats_quiet this (map fst (entries w))
              (logged (SysReaddir (baseDir this)) (entries w) w))
    as (details & w' & Hrun & Hnames & _ & _).
  { reflexivity. }
  { intros n Hn. apply lookup_listed. exact Hn. }
  assert (Hlist : forall s,
             FileManager.listFiles this s w = (Fulfilled details, w')).
  { intros s. unfold FileManager.listFiles, Async.try_catch.
    unfold Async.bind at 1. rewrite FsFacts.readdir_quiet by exact Hquiet.
    unfold Async.bind at 1. unfold Promise.all. rewrite Hrun.
    rewrite all_state_fulfilled. reflexivity. }
  split; [rewrite !Hlist; reflexivity|].
  exists details, w'. split; [apply Hlist | exact Hnames].
Qed.

Lemma lookup_NoDup (d : directory) (n : jsstring) (x : node) :
  List.NoDup (map fst d) -> In (n, x) d -> Fs.lookup n d = Some x.
Proof.
  induction d as [|[m y] d IH]; simpl; [intros _ []|].
  intros Hnd. apply NoDup_cons_iff in Hnd as [Hm Hnd].
  intros [[= -> ->] | Hin].
  - rewrite js_eqb_refl. reflexivity.
  - destruct (js_eqb m n) eqn:E; [|apply IH; assumption].
    apply js_eqb_eq in E. subst m. exfalso. apply Hm.
    apply in_map_iff. exists (n, x). split; [reflexivity | exact Hin].
Qed.

Lemma combine_map_fst {A B C} (f : A * B -> C) (d : list (A * B)) :
  combine (map fst d) (map f d) = map (fun e => (fst e, f e)) d.
Proof.
  induction d as [|e d IH]; [reflexivity|]. cbn [map combine]. rewrite IH.
  reflexivity.
Qed.

Section Listing.
Variable this : manager.

(** The [stat] calls of a listing, started in a quiet world on entries of the
    directory. *)
Lemma start_stats_listed (sub : directory) (w : world) :
  quiet w ->
  (forall n x, In (n, x) sub -> Fs.lookup n (entries w) = Some x) ->
  start_all
    (map (fun filename => Fs.stat (path_join (baseDir this) filename))
       (map fst sub)) w =
  (map (fun e => Fulfilled (Fs.stats_of (snd e))) sub,
   stats_logged this (map fst sub) w).
Proof.
  revert w. induction sub as [|[n x] sub IH]; intros w Hquiet Hin.
  - reflexivity.
  - cbn [map fst start_all].
    rewrite FsFacts.stat_quiet by exact Hquiet. cbn [basename path_join].
    rewrite (Hin n x) by (left; reflexivity).
    rewrite IH; [reflexivity | reflexivity |].
    intros m y Hm. cbn [entries logged]. apply Hin. right. exact Hm.
Qed.



Lemma seq_finished_l {X} (t : task X) (w : world) :
  Callback.seq Callback.finished t w = t w.
Proof. unfold Callback.seq, Callback.finished. destruct (t w). reflexivity. Qed.

Lemma seq_finished_r {X} (t : task X) (w : world) :
  Callback.seq t Callback.finished w = t w.
Proof.
  unfold Callback.seq, Callback.finished. destruct (t w).
  rewrite app_nil_r. reflexivity.
Qed.

(** The [stat] callbacks of [listFiles] when every call succeeded: the last
    one to run calls [callback] with the records in the order they ran. *)
Lemma run_callbacks_fulfilled {X} (files : list jsstring)
    (callback : cbargs (list FileDetails.t) -> task X)
    (done : directory) (l : FileManagerCallback.locals) (w : world) :
  done <> [] ->
  FileManagerCallback.hasError l = false ->
  FileManagerCallback.completed l + Z.of_nat (length done) =
    Z.of_nat (length files) ->
  FileManagerCallback.run_callbacks files callback
    (map (fun e => (fst e, Fulfilled (Fs.stats_of (snd e)))) done) l w =
  callback (Ok (FileManagerCallback.fileDetails l ++ listing done)) w.
Proof.
  revert l w. induction done as [|[n x] rest IH]; intros l w Hne Herr Hcount;
    [contradiction|].
  cbn [map FileManagerCallback.run_callbacks fst snd].
  unfold FileManagerCallback.on_stat. rewrite Herr.
  cbn [FileManagerCallback.completed FileManagerCallback.fileDetails
       FileManagerCallback.hasError].
  destruct rest as [|e rest].
  - cbn [length] in Hcount.
    destruct (Z.eqb_spec (FileManagerCallback.completed l + 1)
                (Z.of_nat (length files))); [|lia].
    cbn [map FileManagerCallback.run_callbacks].
    rewrite seq_finished_r. reflexivity.
  - cbn [length] in Hcount.
    destruct (Z.eqb_spec (FileManagerCallback.completed l + 1)
                (Z.of_nat (length files))); [lia|].
    rewrite seq_finished_l. rewrite IH.
    + cbn [FileManagerCallback.fileDetails listing map fst snd].
      rewrite <- app_assoc. reflexivity.
    + discriminate.
    + reflexivity.
    + cbn [FileManagerCallback.completed length]. lia.
Qed.

(** In a quiet world with a non-empty directory, [listFiles] of
    [FileManagerCallback] calls its callback once, with the records of the
    entries in the order in which the [stat] calls complete. *)
Lemma FileManagerCallback_listFiles_quiet {X} (s : schedule)
    (callback : cbargs (list FileDetails.t) -> task X) (w : world) :
  quiet w ->
  List.NoDup (map fst (entries w)) ->
  entries w <> [] ->
  FileManagerCallback.listFiles this s callback w =
  callback (Ok (completion_order s (listing (entries w))))
    (after_listing this w).
Proof.
  intros Hquiet Hnd Hne. unfold FileManagerCallback.listFiles, Callback.call.
  rewrite FsFacts.readdir_quiet by exact Hquiet.
  rewrite start_stats_listed;
    [| reflexivity | intros n x Hin; apply lookup_NoDup; assumption].
  cbn [entries logged].
  rewrite combine_map_fst.
  rewrite completion_order_map.
  pose proof (completion_order_Permutation s (entries w)) as Hperm.
  rewrite run_callbacks_fulfilled.
  - cbn [FileManagerCallback.fileDetails app]. unfold listing.
    rewrite completion_order_map. reflexivity.
  - intros Hnil. rewrite Hnil in Hperm. apply Permutation_nil in Hperm.
    contradiction.
  - reflexivity.
  - cbn [FileManagerCallback.completed]. rewrite length_map.
    rewrite (Permutation_length Hperm). lia.
Qed.

End Listing.

(** C8.  The listing of [FileManagerCallback] is in the order the [stat]
    calls complete: on one and the same directory holding [a.txt] and [b.txt]
    it returns the two records in either order, according to which call
    completes first. *)
Theorem callback_listing_order_unstable :
  exists a b,
    FileDetails.filename a = Sample.a_txt /\
    FileDetails.filename b = Sample.b_txt /\
    fst (FileManagerCallback.listFiles Sample.fileManager [0%nat; 0%nat]
           Callback.record Sample.two_files) = [Ok [a; b]] /\
    fst (FileManagerCallback.listFiles Sample.fileManager [1%nat; 0%nat]
           Callback.record Sample.two_files) = [Ok [b; a]] /\
    [a; b] <> [b; a].
Proof.
  do 2 eexists. split; [|split; [|split; [|split]]].
  3: vm_compute; reflexivity.
  3: vm_compute; reflexivity.
  - reflexivity.
  - reflexivity.
  - discriminate.
Qed.

(** Every order of the records is the result of [FileManagerCallback] for
    some order of completion. *)
Lemma callback_listing_any_order (this : manager) (w : world)
    (files : list FileDetails.t) :
  quiet w ->
  List.NoDup (map fst (entries w)) ->
  entries w <> [] ->
  Permutation (listing (entries w)) files ->
  exists s,
    FileManagerCallback.listFiles this s Callback.record w =
    ([Ok files], after_listing this w).
Proof.
  intros Hquiet Hnd Hne Hperm.
  destruct (completion_order_complete _ _ Hperm) as [s Hs]. exists s.
  rewrite FileManagerCallback_listFiles_quiet by assumption.
  rewrite Hs. reflexivity.
Qed.

(** C10.  When [readdir] enumerates no entry, [listFiles] of
    [FileManagerCallback] makes no call of its callback, whatever the callback
    and the schedule; the promise and the async variant are fulfilled with the
    empty list. *)
Theorem listFiles_empty_directory {X : Type} (this : manager) (s : schedule)
    (callback : cbargs (list FileDetails.t) -> task X) (w w' : world) :
  Fs.readdir (baseDir this) w = (Fulfilled [], w') ->
  FileManagerCallback.listFiles this s callback w = ([], w') /\
  FileManagerPromise.listFiles this s w = (Fulfilled [], w') /\
  FileManagerAsync.listFiles this s w = (Fulfilled [], w').
Proof.
  intros Hreaddir. split; [|split].
  - unfold FileManagerCallback.listFiles, Callback.call.
    rewrite Hreaddir. reflexivity.
  - unfold FileManagerPromise.listFiles, Promise.new_Promise, Callback.call.
    rewrite Hreaddir. reflexivity.
  - unfold FileManagerAsync.listFiles, Async.try_catch, Async.bind.
    rewrite Hreaddir. reflexivity.
Qed.

Lemma listFiles_empty_directory_witness :
  Fs.readdir (baseDir Sample.fileManager) Sample.empty =
    (Fulfilled [],
     logged (SysReaddir (baseDir Sample.fileManager)) [] Sample.empty) /\
  FileManagerCallback.listFiles Sample.fileManager [] Callback.record
    Sample.empty =
    ([], logged (SysReaddir (baseDir Sample.fileManager)) [] Sample.empty) /\
  FileManagerPromise.listFiles Sample.fileManager [] Sample.empty =
    (Fulfilled [],
     logged (SysReaddir (baseDir Sample.fileManager)) [] Sample.empty) /\
  FileManagerAsync.listFiles Sample.fileManager [] Sample.empty =
    (Fulfilled [],
     logged (SysReaddir (baseDir Sample.fileManager)) [] Sample.empty).
Proof.
  split; [reflexivity|].
  apply (listFiles_empty_directory Sample.fileManager [] Callback.record
           Sample.empty
           (logged (SysReaddir (baseDir Sample.fileManager)) [] Sample.empty)).
  reflexivity.
Defined.

(** ** The three variants compared *)





Section ListingVariants.
Variable this : manager.




End ListingVariants.

(** C1.  The three variants do not behave the same on [listFiles]: on an
    empty base directory the callback of [FileManagerCallback] is never
    called, so its caller learns nothing, where [FileManagerPromise] and
    [FileManagerAsync] are fulfilled with the empty list. *)
Theorem variants_differ_on_empty_listing :
  observe (FileManagerCallback.listFiles Sample.fileManager [] Callback.record
             Sample.empty) =
    (Pending,
     logged (SysReaddir (baseDir Sample.fileManager)) [] Sample.empty) /\
  FileManagerPromise.listFiles Sample.fileManager [] Sample.empty =
    (Fulfilled [],
     logged (SysReaddir (baseDir Sample.fileManager)) [] Sample.empty) /\
  FileManagerAsync.listFiles Sample.fileManager [] Sample.empty =
    (Fulfilled [],
     logged (SysReaddir (baseDir Sample.fileManager)) [] Sample.empty) /\
  observe (FileManagerCallback.listFiles Sample.fileManager [] Callback.record
             Sample.empty) <>
    FileManagerAsync.listFiles Sample.fileManager [] Sample.empty.
Proof.
  split; [reflexivity|]. split; [reflexivity|]. split; [reflexivity|].
  discriminate.
Qed.

(** ** The request handler *)

(** C9.  A [POST /api/files] whose JSON body lacks [content] or [filename]
    is answered with the message ['Filename and content are required'] and
    the status 500: [handleError] gives 400 to two other messages only, and
    no call reaches the file manager. *)
Theorem post_missing_field_status (fileManager : manager) (s : schedule)
    (fields : gmap string jsstring) (w : world) :
  fields !! "content" = None \/ fields !! "filename" = None ->
  Server.handler fileManager s
    {| Server.method := js "POST"; Server.pathname := js "/api/files";
       Server.sent := Server.Json fields |} w =
  (Fulfilled {| Server.statusCode := 500;
                Server.data :=
                  Server.Failed (js "Filename and content are required") 500 |},
   w).
Proof.
  intros Hmissing. unfold Server.handler, Async.try_catch.
  cbn [Server.method Server.pathname].
  change (startsWith (js "/api/files") (js "/api/files")) with true.
  change (js_eqb (js "POST") (js "POST")) with true.
  change (js_eqb (js "/api/files") (js "/api/files")) with true.
  cbn [andb]. unfold Async.bind at 1, Server.parseBody.
  cbn [Server.sent Async.ret].
  assert (Hthrow :
            match Server.truthy (fields !! "filename"),
                  Server.truthy (fields !! "content") with
            | Some _, Some _ => False
            | _, _ => True
            end).
  { destruct Hmissing as [-> | ->]; cbn [Server.truthy];
      [destruct (Server.truthy _)|]; exact I. }
  destruct (Server.truthy (fields !! "filename")) as [filename|];
    [destruct (Server.truthy (fields !! "content")) as [content|];
     [contradiction|] |]; reflexivity.
Qed.

Lemma post_missing_field_status_witness :
  ({[ "filename" := Sample.a_txt ]} : gmap string jsstring) !! "content" =
    None /\
  Server.handler Sample.fileManager [] Sample.post_without_content
    Sample.empty =
  (Fulfilled {| Server.statusCode := 500;
                Server.data :=
                  Server.Failed (js "Filename and content are required") 500 |},
   Sample.empty).
Proof.
  split; [reflexivity|].
  apply (post_missing_field_status Sample.fileManager []
           {[ "filename" := Sample.a_txt ]} Sample.empty).
  left. reflexivity.
Defined.

(** * Further properties of the code *)

(** ** The directory as a map *)

Lemma js_eqb_neq (a b : jsstring) : a <> b -> js_eqb a b = false.
Proof.
  intros H. destruct (js_eqb a b) eqn:E; [|reflexivity].
  apply js_eqb_eq in E. contradiction.
Qed.


Lemma remove_absent (name : jsstring) (d : directory) :
  Fs.lookup name d = None -> Fs.remove name d = d.
Proof.
  induction d as [|[n y] d IH]; cbn [Fs.lookup Fs.remove]; [reflexivity|].
  destruct (js_eqb n name); [discriminate|]. intros H. rewrite IH by exact H.
  reflexivity.
Qed.

Lemma remove_put_absent (name : jsstring) (x : node) (d : directory) :
  Fs.lookup name d = None -> Fs.remove name (Fs.put name x d) = d.
Proof.
  induction d as [|[n y] d IH]; cbn [Fs.lookup Fs.put Fs.remove].
  - rewrite js_eqb_refl. reflexivity.
  - destruct (js_eqb n name) eqn:E; [discriminate|]. intros H.
    cbn [Fs.remove]. rewrite E, IH by exact H. reflexivity.
Qed.

Lemma lookup_put_other (name other : jsstring) (x : node) (d : directory) :
  other <> name -> Fs.lookup other (Fs.put name x d) = Fs.lookup other d.
Proof.
  intros Hne. induction d as [|[n y] d IH]; cbn [Fs.lookup Fs.put].
  - rewrite js_eqb_neq by (intros H; apply Hne; symmetry; exact H).
    reflexivity.
  - destruct (js_eqb n name) eqn:E; cbn [Fs.lookup].
    + apply js_eqb_eq in E. subst n.
      rewrite js_eqb_neq by (intros H; apply Hne; symmetry; exact H).
      reflexivity.
    + rewrite IH. reflexivity.
Qed.

Lemma lookup_remove_other (name other : jsstring) (d : directory) :
  other <> name -> Fs.lookup other (Fs.remove name d) = Fs.lookup other d.
Proof.
  intros Hne. induction d as [|[n y] d IH]; cbn [Fs.lookup Fs.remove];
    [reflexivity|].
  destruct (js_eqb n name) eqn:E; cbn [Fs.lookup].
  - apply js_eqb_eq in E. subst n.
    rewrite js_eqb_neq by (intros H; apply Hne; symmetry; exact H).
    exact IH.
  - rewrite IH. reflexivity.
Qed.

Lemma lookup_None_not_listed (name : jsstring) (d : directory) :
  Fs.lookup name d = None -> ~ In name (map fst d).
Proof.
  induction d as [|[n y] d IH]; cbn [Fs.lookup map fst]; [intros _ []|].
  destruct (js_eqb n name) eqn:E; [discriminate|]. intros H [-> | Hin].
  - rewrite js_eqb_refl in E. discriminate.
  - exact (IH H Hin).
Qed.

Lemma remove_not_listed (name : jsstring) (d : directory) :
  ~ In name (map fst (Fs.remove name d)).
Proof. apply lookup_None_not_listed, FsFacts.lookup_remove_same. Qed.

Lemma remove_listed (name other : jsstring) (d : directory) :
  In other (map fst (Fs.remove name d)) -> In other (map fst d).
Proof.
  induction d as [|[n y] d IH]; cbn [Fs.remove map fst]; [intros []|].
  destruct (js_eqb n name); cbn [map fst In]; intuition.
Qed.


Lemma NoDup_remove (name : jsstring) (d : directory) :
  List.NoDup (map fst d) -> List.NoDup (map fst (Fs.remove name d)).
Proof.
  induction d as [|[n y] d IH]; cbn [Fs.remove map fst]; [auto|].
  intros Hnd. apply NoDup_cons_iff in Hnd as [Hn Hnd].
  destruct (js_eqb n name); [apply IH, Hnd|].
  cbn [map fst]. constructor; [|apply IH, Hnd].
  intros H. apply Hn. eapply remove_listed, H.
Qed.

(** ** Every call settles *)




















(** *** The operations of [FileManager] settle *)







(** ** The callback is called once *)


(** *** [listFiles] *)





(** ** The errors an operation can be rejected with *)


Lemma fs_error_ENOENT call p : fs_error (Fs.ENOENT call p).
Proof. exists call, p. left. reflexivity. Qed.

Lemma fs_error_EISDIR call p : fs_error (Fs.EISDIR call p).
Proof. exists call, p. right. reflexivity. Qed.

#[local] Hint Resolve fs_error_ENOENT fs_error_EISDIR : core.















(** ** The request handler *)



Lemma thrown_answer (e : jserror) (w : world) :
  Async.try_catch (Async.throw e) (fun error => Server.handleError error) w =
  Server.handleError e w.
Proof. reflexivity. Qed.


(** *** The routes *)

Lemma handler_post (fileManager : manager) (s : schedule)
    (fields : gmap string jsstring) (w : world) :
  Server.handler fileManager s (post fields) w =
  match Server.truthy (fields !! "filename"),
        Server.truthy (fields !! "content") with
  | Some filename, Some content =>
      Async.try_catch
        (Async.bind (FileManager.createFile fileManager filename content)
           (fun result =>
              Server.sendJsonResponse 201 (Server.Created result)))
        (fun error => Server.handleError error) w
  | _, _ =>
      Server.handleError (new_Error "Filename and content are required") w
  end.
Proof.
  unfold Server.handler, post. cbn [Server.method Server.pathname].
  change (startsWith (js "/api/files") (js "/api/files")) with true.
  change (js_eqb (js "POST") (js "POST")) with true.
  change (js_eqb (js "/api/files") (js "/api/files")) with true.
  cbn [andb]. unfold Server.parseBody. cbn [Server.sent].
  change (Async.try_catch (Async.bind (Async.ret fields) ?k) ?h w)
    with (Async.try_catch (k fields) h w).
  cbv beta.
  destruct (Server.truthy (fields !! "filename"));
    [destruct (Server.truthy (fields !! "content"))|]; reflexivity.
Qed.


Lemma handler_get (fileManager : manager) (s : schedule) (b : Server.body)
    (rest : jsstring) (w : world) :
  Server.handler fileManager s
    {| Server.method := js "GET"; Server.pathname := api_file rest;
       Server.sent := b |} w =
  Async.try_catch
    (Async.bind (FileManager.readFile fileManager (last_segment [] rest))
       (fun file => Server.sendJsonResponse 200 (Server.Content file)))
    (fun error => Server.handleError error) w.
Proof. reflexivity. Qed.

Lemma handler_delete (fileManager : manager) (s : schedule) (b : Server.body)
    (rest : jsstring) (w : world) :
  Server.handler fileManager s
    {| Server.method := js "DELETE"; Server.pathname := api_file rest;
       Server.sent := b |} w =
  Async.try_catch
    (Async.bind (FileManager.deleteFile fileManager (last_segment [] rest))
       (fun result => Server.sendJsonResponse 200 (Server.Deleted result)))
    (fun error => Server.handleError error) w.
Proof. reflexivity. Qed.





(** *** Requests no route serves *)

(** X3.  A path outside [/api/files] other than [/health] is answered with the
    status 500 and the text ['Not found'], whatever the method, and no call of
    the file system is made. *)
Theorem unknown_path_is_500 (fileManager : manager) (s : schedule)
    (req : Server.request) (w : world) :
  startsWith (Server.pathname req) (js "/api/files") = false ->
  Server.pathname req <> js "/health" ->
  Server.handler fileManager s req w =
  (Fulfilled {| Server.statusCode := 500;
                Server.data := Server.Failed (js "Not found") 500 |}, w).
Proof.
  intros Hpath Hhealth. unfold Server.handler. rewrite Hpath.
  rewrite (js_eqb_neq _ _ Hhealth). reflexivity.
Qed.

Lemma unknown_path_is_500_witness :
  startsWith (js "/favicon.ico") (js "/api/files") = false /\
  js "/favicon.ico" <> js "/health" /\
  Server.handler Sample.fileManager [] (bodyless "GET" (js "/favicon.ico"))
    Sample.two_files =
  (Fulfilled {| Server.statusCode := 500;
                Server.data := Server.Failed (js "Not found") 500 |},
   Sample.two_files).
Proof.
  split; [reflexivity|]. split; [discriminate|].
  apply (unknown_path_is_500 Sample.fileManager []
           (bodyless "GET" (js "/favicon.ico")) Sample.two_files);
    [reflexivity | discriminate].
Defined.

(** X4.  Under [/api/files], a method other than [POST], [GET] and [DELETE] is
    answered with the status 500 and the text ['Method not allowed'], and no
    call of the file system is made. *)
Theorem other_method_is_500 (fileManager : manager) (s : schedule)
    (req : Server.request) (w : world) :
  startsWith (Server.pathname req) (js "/api/files") = true ->
  Server.method req <> js "POST" ->
  Server.method req <> js "GET" ->
  Server.method req <> js "DELETE" ->
  Server.handler fileManager s req w =
  (Fulfilled {| Server.statusCode := 500;
                Server.data := Server.Failed (js "Method not allowed") 500 |},
   w).
Proof.
  intros Hpath Hpost Hget Hdelete. unfold Server.handler. rewrite Hpath.
  rewrite (js_eqb_neq _ _ Hpost), (js_eqb_neq _ _ Hget),
    (js_eqb_neq _ _ Hdelete).
  reflexivity.
Qed.

Lemma other_method_is_500_witness :
  startsWith (api_file Sample.a_txt) (js "/api/files") = true /\
  js "PUT" <> js "POST" /\ js "PUT" <> js "GET" /\ js "PUT" <> js "DELETE" /\
  Server.handler Sample.fileManager [] (bodyless "PUT" (api_file Sample.a_txt))
    Sample.two_files =
  (Fulfilled {| Server.statusCode := 500;
                Server.data := Server.Failed (js "Method not allowed") 500 |},
   Sample.two_files).
Proof.
  split; [reflexivity|]. split; [discriminate|]. split; [discriminate|].
  split; [discriminate|].
  apply (other_method_is_500 Sample.fileManager []
           (bodyless "PUT" (api_file Sample.a_txt)) Sample.two_files);
    [reflexivity | discriminate | discriminate | discriminate].
Defined.

(** *** Creation requests that never reach the file manager *)



(** *** The name taken from the path *)

Lemma last_segment_no_slash (acc s : jsstring) :
  ~ In 47 s -> last_segment acc s = acc ++ s.
Proof.
  revert acc. induction s as [|c s IH]; intros acc Hs; cbn [last_segment].
  - rewrite app_nil_r. reflexivity.
  - destruct (Z.eqb_spec c 47) as [-> | _];
      [exfalso; apply Hs; left; reflexivity|].
    rewrite IH by (intros H; apply Hs; right; exact H).
    rewrite <- app_assoc. reflexivity.
Qed.

Lemma last_segment_spec (acc s : jsstring) :
  ~ In 47 acc ->
  ~ In 47 (last_segment acc s) /\
  exists pre, acc ++ s = pre ++ last_segment acc s.
Proof.
  revert acc. induction s as [|c s IH]; intros acc Hacc; cbn [last_segment].
  - split; [exact Hacc|]. exists []. rewrite app_nil_r. reflexivity.
  - destruct (Z.eqb_spec c 47) as [-> | Hc].
    + destruct (IH [] (fun H => H)) as [Hno (pre & Hpre)].
      split; [exact Hno|]. exists (acc ++ [47] ++ pre).
      cbn [app] in Hpre. rewrite <- !app_assoc. cbn [app].
      do 2 f_equal. exact Hpre.
    + destruct (IH (acc ++ [c])) as [Hno (pre & Hpre)].
      { intros H. apply in_app_or in H as [H | [H | []]];
          [exact (Hacc H) | exact (Hc H)]. }
      split; [exact Hno|]. exists pre. rewrite <- Hpre, <- app_assoc.
      reflexivity.
Qed.

(** X6.  The name the handler hands to [readFile] and [deleteFile] is the end
    of the path and holds no ['/']; for a path that ends in ['/'] and a name
    without ['/'], it is that name. *)
Theorem name_from_path (path name : jsstring) :
  ~ In 47 name ->
  ~ In 47 (last_segment [] path) /\
  (exists pre, path = pre ++ last_segment [] path) /\
  last_segment [] (path ++ js "/" ++ name) = name.
Proof.
  intros Hname.
  destruct (last_segment_spec [] path (fun H => H)) as [Hno Hsuffix].
  split; [exact Hno|]. split; [exact Hsuffix|]. clear Hno Hsuffix.
  change (js "/") with [47]. revert name Hname.
  assert (H : forall acc name,
             ~ In 47 name -> last_segment acc (path ++ [47] ++ name) = name).
  { induction path as [|c p IH]; intros acc name Hname.
    - cbn [app last_segment]. change (47 =? 47) with true. cbn iota.
      apply (last_segment_no_slash [] name Hname).
    - cbn [app last_segment]. destruct (c =? 47); apply IH, Hname. }
  apply H.
Qed.

Lemma name_from_path_witness :
  ~ In 47 (js "a.txt") /\
  last_segment [] (js "/api/files" ++ js "/" ++ js "a.txt") = js "a.txt".
Proof.
  assert (H : ~ In 47 (js "a.txt")).
  { cbn. intros [H | [H | [H | [H | [H | []]]]]]; discriminate H. }
  split; [exact H|].
  exact (proj2 (proj2 (name_from_path (js "/api/files") (js "a.txt") H))).
Defined.

(** ** A file's life over HTTP *)

Lemma valid_no_slash (name : jsstring) :
  Validator.isValidFilename name = true -> ~ In 47 name.
Proof. intros H. apply isValidFilename_iff in H. apply H. Qed.

Lemma truthy_nonempty (s : jsstring) :
  s <> [] -> Server.truthy (Some s) = Some s.
Proof. destruct s; [contradiction | reflexivity]. Qed.

(** X7.  For a valid name absent from a directory no other process touches and
    a non-empty content without unpaired surrogate: [POST] answers 201, [GET]
    of the name then answers 200 with the content unchanged, [DELETE] answers
    200, a second [GET] answers 404, and the directory is as it was before. *)
Theorem http_lifecycle (fileManager : manager) (s : schedule)
    (fields : gmap string jsstring) (name content : jsstring) (w : world) :
  fields !! "filename" = Some name ->
  fields !! "content" = Some content ->
  Validator.isValidFilename name = true ->
  content <> [] ->
  Utf8.well_formed content = true ->
  Fs.lookup name (entries w) = None ->
  quiet w ->
  exists created w1 file w2 deleted w3 w4,
    Server.handler fileManager s (post fields) w =
      (Fulfilled {| Server.statusCode := 201;
                    Server.data := Server.Created created |}, w1) /\
    Server.handler fileManager s (bodyless "GET" (api_file name)) w1 =
      (Fulfilled {| Server.statusCode := 200;
                    Server.data := Server.Content file |}, w2) /\
    ReadResult.content file = content /\
    Server.handler fileManager s (bodyless "DELETE" (api_file name)) w2 =
      (Fulfilled {| Server.statusCode := 200;
                    Server.data := Server.Deleted deleted |}, w3) /\
    Server.handler fileManager s (bodyless "GET" (api_file name)) w3 =
      (Fulfilled {| Server.statusCode := 404;
                    Server.data := Server.Failed (js "File not found") 404 |},
       w4) /\
    entries w4 = entries w.
Proof.
  intros Hf Hc Hvalid Hne Hwf Habsent Hquiet.
  assert (Hname : name <> []).
  { intros ->. discriminate Hvalid. }
  assert (Hseg : last_segment [] name = name).
  { apply (last_segment_no_slash [] name), valid_no_slash, Hvalid. }
  do 7 eexists. split; [|split; [|split; [|split; [|split]]]].
  - rewrite handler_post, Hf, Hc, !truthy_nonempty by assumption.
    unfold Async.try_catch, Async.bind.
    rewrite FileManagerFacts.createFile_absent by assumption. reflexivity.
  - unfold bodyless. rewrite handler_get, Hseg.
    unfold Async.try_catch, Async.bind.
    erewrite FileManagerFacts.readFile_file;
      [reflexivity | assumption | reflexivity |].
    cbn [entries logged]. apply FsFacts.lookup_put_same.
  - cbn [ReadResult.content]. apply Utf8Facts.decode_encode, Hwf.
  - unfold bodyless. rewrite handler_delete, Hseg.
    unfold Async.try_catch, Async.bind.
    erewrite FileManagerFacts.deleteFile_file;
      [reflexivity | assumption | reflexivity |].
    cbn [entries logged]. apply FsFacts.lookup_put_same.
  - unfold bodyless. rewrite handler_get, Hseg.
    unfold Async.try_catch, Async.bind.
    rewrite FileManagerFacts.readFile_absent;
      [reflexivity | assumption | reflexivity |].
    cbn [entries logged]. apply FsFacts.lookup_remove_same.
  - cbn [entries logged]. apply remove_put_absent, Habsent.
Qed.

Lemma http_lifecycle_witness :
  ({[ "filename" := Sample.a_txt; "content" := js "hello" ]}
     : gmap string jsstring) !! "filename" = Some Sample.a_txt /\
  ({[ "filename" := Sample.a_txt; "content" := js "hello" ]}
     : gmap string jsstring) !! "content" = Some (js "hello") /\
  Validator.isValidFilename Sample.a_txt = true /\
  js "hello" <> [] /\
  Utf8.well_formed (js "hello") = true /\
  Fs.lookup Sample.a_txt (entries Sample.empty) = None /\
  quiet Sample.empty /\
  exists created w1 file w2 deleted w3 w4,
    Server.handler Sample.fileManager []
      (post {[ "filename" := Sample.a_txt; "content" := js "hello" ]})
      Sample.empty =
      (Fulfilled {| Server.statusCode := 201;
                    Server.data := Server.Created created |}, w1) /\
    Server.handler Sample.fileManager []
      (bodyless "GET" (api_file Sample.a_txt)) w1 =
      (Fulfilled {| Server.statusCode := 200;
                    Server.data := Server.Content file |}, w2) /\
    ReadResult.content file = js "hello" /\
    Server.handler Sample.fileManager []
      (bodyless "DELETE" (api_file Sample.a_txt)) w2 =
      (Fulfilled {| Server.statusCode := 200;
                    Server.data := Server.Deleted deleted |}, w3) /\
    Server.handler Sample.fileManager []
      (bodyless "GET" (api_file Sample.a_txt)) w3 =
      (Fulfilled {| Server.statusCode := 404;
                    Server.data := Server.Failed (js "File not found") 404 |},
       w4) /\
    entries w4 = entries Sample.empty.
Proof.
  split; [reflexivity|]. split; [reflexivity|]. split; [reflexivity|].
  split; [discriminate|]. split; [reflexivity|]. split; [reflexivity|].
  split; [reflexivity|].
  apply (http_lifecycle Sample.fileManager []
           {[ "filename" := Sample.a_txt; "content" := js "hello" ]}
           Sample.a_txt (js "hello") Sample.empty);
    (reflexivity || discriminate).
Defined.

(** ** Reading leaves the directory as it is *)

Lemma serve_reads_only {A} (c : syscall)
    (f : directory -> Z -> state A * directory) :
  (forall d t, snd (f d t) = d) -> reads_only (Fs.serve c f).
Proof.
  intros Hf w Hquiet. rewrite FsFacts.serve_quiet by exact Hquiet.
  cbn [snd entries logged]. split; [reflexivity | apply Hf].
Qed.

Lemma access_reads_only p : reads_only (Fs.access p).
Proof.
  apply serve_reads_only. intros d t.
  destruct (Fs.lookup (basename p) d); reflexivity.
Qed.

Lemma readFile_reads_only p : reads_only (Fs.readFile p).
Proof.
  apply serve_reads_only. intros d t.
  destruct (Fs.lookup (basename p) d) as [[]|]; reflexivity.
Qed.

Lemma stat_reads_only p : reads_only (Fs.stat p).
Proof.
  apply serve_reads_only. intros d t.
  destruct (Fs.lookup (basename p) d); reflexivity.
Qed.

Lemma readdir_reads_only dir : reads_only (Fs.readdir dir).
Proof. apply serve_reads_only. reflexivity. Qed.

Lemma ret_reads_only {A} (v : A) : reads_only (Async.ret v).
Proof. intros w Hq. split; [exact Hq | reflexivity]. Qed.

Lemma throw_reads_only {A} (e : jserror) : reads_only (@Async.throw A e).
Proof. intros w Hq. split; [exact Hq | reflexivity]. Qed.

Lemma bind_reads_only {A B} (m : promise A) (k : A -> promise B) :
  reads_only m -> (forall v, reads_only (k v)) -> reads_only (Async.bind m k).
Proof.
  intros Hm Hk w Hq. unfold Async.bind. destruct (Hm w Hq) as [Hq1 He1].
  destruct (m w) as [[|v|e] w1]; cbn [snd] in *; try (split; assumption).
  destruct (Hk v w1 Hq1) as [Hq2 He2]. split; [exact Hq2 | congruence].
Qed.

Lemma try_catch_reads_only {A} (body : promise A)
    (handler : jserror -> promise A) :
  reads_only body -> (forall e, reads_only (handler e)) ->
  reads_only (Async.try_catch body handler).
Proof.
  intros Hb Hh w Hq. unfold Async.try_catch. destruct (Hb w Hq) as [Hq1 He1].
  destruct (body w) as [[|v|e] w1]; cbn [snd] in *; try (split; assumption).
  destruct (Hh e w1 Hq1) as [Hq2 He2]. split; [exact Hq2 | congruence].
Qed.

Lemma all_reads_only {A} (s : schedule) (ps : list (promise A)) :
  List.Forall reads_only ps -> reads_only (Promise.all s ps).
Proof.
  intros Hps w Hq. unfold Promise.all.
  assert (H : quiet (snd (start_all ps w)) /\
              entries (snd (start_all ps w)) = entries w).
  { revert w Hq. induction Hps as [|p ps Hp _ IH]; intros w Hq.
    - split; [exact Hq | reflexivity].
    - cbn [start_all]. destruct (Hp w Hq) as [Hq1 He1].
      destruct (p w) as [r w1]. cbn [snd] in *.
      destruct (IH w1 Hq1) as [Hq2 He2].
      destruct (start_all ps w1) as [rs w2]. cbn [snd] in *.
      split; [exact Hq2 | congruence]. }
  destruct (start_all ps w) as [states w1]. exact H.
Qed.

Lemma readFile_op_reads_only (this : manager) (name : jsstring) :
  reads_only (FileManager.readFile this name).
Proof.
  unfold FileManager.readFile. apply try_catch_reads_only.
  - destruct (negb _); [apply throw_reads_only|].
    apply bind_reads_only; [apply readFile_reads_only|]. intros c.
    apply bind_reads_only; [apply stat_reads_only|].
    intros; apply ret_reads_only.
  - intros e. destruct (code_is e "ENOENT"); apply throw_reads_only.
Qed.

Lemma listFiles_reads_only (this : manager) (s : schedule) :
  reads_only (FileManager.listFiles this s).
Proof.
  unfold FileManager.listFiles.
  apply try_catch_reads_only; [|intros; apply throw_reads_only].
  apply bind_reads_only; [apply readdir_reads_only|]. intros files.
  apply bind_reads_only; [|intros; apply ret_reads_only].
  apply all_reads_only. apply List.Forall_forall. intros p Hp.
  apply in_map_iff in Hp as (n & <- & _).
  apply bind_reads_only; [apply stat_reads_only|intros; apply ret_reads_only].
Qed.

(** X19.  In a world no other process touches, [readFile] and [listFiles]
    leave every entry of the directory as it was, whatever they answer. *)
Theorem reading_changes_nothing (this : manager) (name : jsstring)
    (s : schedule) (w : world) :
  quiet w ->
  entries (snd (FileManager.readFile this name w)) = entries w /\
  entries (snd (FileManager.listFiles this s w)) = entries w.
Proof.
  intros Hq. split.
  - apply (readFile_op_reads_only this name w Hq).
  - apply (listFiles_reads_only this s w Hq).
Qed.

Lemma reading_changes_nothing_witness :
  quiet Sample.two_files /\
  entries (snd (FileManager.readFile Sample.fileManager Sample.a_txt
                  Sample.two_files)) = entries Sample.two_files /\
  entries (snd (FileManager.listFiles Sample.fileManager [1%nat]
                  Sample.two_files)) = entries Sample.two_files.
Proof.
  split; [reflexivity|].
  apply (reading_changes_nothing Sample.fileManager Sample.a_txt [1%nat]
           Sample.two_files).
  reflexivity.
Defined.

(** ** Operations on one name leave the other names alone *)

Lemma deleteFile_directory (this : manager) (name : jsstring) (w : world)
    (st : Stats) :
  Validator.isValidFilename name = true ->
  quiet w ->
  Fs.lookup name (entries w) = Some (Directory st) ->
  FileManager.deleteFile this name w =
  (Rejected (Fs.EISDIR "unlink" (path_join (baseDir this) name)),
   logged (SysUnlink (path_join (baseDir this) name)) (entries w)
     (logged (SysAccess (path_join (baseDir this) name)) (entries w) w)).
Proof.
  intros Hvalid Hquiet Hdir.
  unfold FileManager.deleteFile, Async.try_catch, Async.bind,
    FileManager.isValidFilename.
  rewrite Hvalid. cbn [negb].
  rewrite FsFacts.access_quiet by assumption.
  cbn [basename path_join]. rewrite Hdir.
  rewrite FsFacts.unlink_quiet by reflexivity.
  cbn [basename path_join entries logged]. rewrite Hdir. reflexivity.
Qed.

Lemma readFile_directory (this : manager) (name : jsstring) (w : world)
    (st : Stats) :
  Validator.isValidFilename name = true ->
  quiet w ->
  Fs.lookup name (entries w) = Some (Directory st) ->
  FileManager.readFile this name w =
  (Rejected (Fs.EISDIR "read" (path_join (baseDir this) name)),
   logged (SysReadFile (path_join (baseDir this) name)) (entries w) w).
Proof.
  intros Hvalid Hquiet Hdir.
  unfold FileManager.readFile, Async.try_catch, Async.bind,
    FileManager.isValidFilename.
  rewrite Hvalid. cbn [negb].
  rewrite FsFacts.readFile_quiet by assumption.
  cbn [basename path_join]. rewrite Hdir. reflexivity.
Qed.

(** X20.  In a world no other process touches, [createFile] and [deleteFile]
    on a name leave every entry of another name as it was, whatever they
    answer. *)
Theorem other_names_untouched (this : manager) (name other content : jsstring)
    (w : world) :
  quiet w ->
  other <> name ->
  Fs.lookup other (entries (snd (FileManager.createFile this name content w)))
    = Fs.lookup other (entries w) /\
  Fs.lookup other (entries (snd (FileManager.deleteFile this name w)))
    = Fs.lookup other (entries w).
Proof.
  intros Hq Hne. destruct (Validator.isValidFilename name) eqn:Hvalid.
  - destruct (Fs.lookup name (entries w)) as [[bytes born modified|st]|] eqn:E.
    + rewrite (FileManagerFacts.createFile_present this name w Hvalid Hq
                 content _ E).
      rewrite (FileManagerFacts.deleteFile_file this name w Hvalid Hq _ _ _ E).
      cbn [snd entries logged]. split; [reflexivity|].
      apply lookup_remove_other, Hne.
    + rewrite (FileManagerFacts.createFile_present this name w Hvalid Hq
                 content _ E).
      rewrite (deleteFile_directory this name w st Hvalid Hq E).
      split; reflexivity.
    + rewrite (FileManagerFacts.createFile_absent this name w Hvalid Hq
                 content E).
      rewrite (FileManagerFacts.deleteFile_absent this name w Hvalid Hq E).
      cbn [snd entries logged]. split; [|reflexivity].
      apply lookup_put_other, Hne.
  - unfold FileManager.createFile, FileManager.deleteFile,
      FileManager.isValidFilename, Async.try_catch.
    rewrite Hvalid. split; reflexivity.
Qed.

Lemma other_names_untouched_witness :
  quiet Sample.two_files /\
  Sample.b_txt <> Sample.a_txt /\
  Fs.lookup Sample.b_txt
    (entries (snd (FileManager.createFile Sample.fileManager Sample.a_txt
                     (js "x") Sample.two_files)))
    = Fs.lookup Sample.b_txt (entries Sample.two_files) /\
  Fs.lookup Sample.b_txt
    (entries (snd (FileManager.deleteFile Sample.fileManager Sample.a_txt
                     Sample.two_files)))
    = Fs.lookup Sample.b_txt (entries Sample.two_files).
Proof.
  split; [reflexivity|]. split; [discriminate|].
  apply (other_names_untouched Sample.fileManager Sample.a_txt Sample.b_txt
           (js "x") Sample.two_files); [reflexivity | discriminate].
Defined.

(** ** Races with another process *)





(** ** A listing is whole or rejected *)

Lemma values_inv {A} (states : list (state A)) (vs : list A) :
  Promise.values states = Some vs -> states = map Fulfilled vs.
Proof.
  revert vs. induction states as [|r states IH]; intros vs;
    cbn [Promise.values].
  - intros [= <-]. reflexivity.
  - destruct r as [|v|e]; try discriminate.
    destruct (Promise.values states) as [vs'|]; [|discriminate].
    intros [= <-]. rewrite (IH vs' eq_refl). reflexivity.
Qed.

Lemma all_state_fulfilled_inv {A} (s : schedule) (states : list (state A))
    (vs : list A) :
  Promise.all_state s states = Fulfilled vs -> states = map Fulfilled vs.
Proof.
  unfold Promise.all_state. destruct (Promise.first_rejection _);
    [discriminate|].
  destruct (Promise.values states) as [vs'|] eqn:E; [|discriminate].
  intros [= <-]. apply values_inv, E.
Qed.

Lemma started_details_names (this : manager) (names : list jsstring)
    (w : world) (files : list FileDetails.t) :
  fst (start_all
         (map (fun filename =>
                 Async.bind (Fs.stat (path_join (baseDir this) filename))
                   (fun stats =>
                      Async.ret
                        {| FileDetails.filename := filename;
                           FileDetails.size := size stats;
                           FileDetails.created := birthtime stats;
                           FileDetails.modified := mtime stats |}))
            names) w) = map Fulfilled files ->
  map FileDetails.filename files = names.
Proof.
  revert w files. induction names as [|n names IH]; intros w files.
  - destruct files; [reflexivity | discriminate].
  - cbn [map start_all]. unfold Async.bind at 1.
    destruct (Fs.stat (path_join (baseDir this) n) w) as [[|st|e] w1];
      cbn [Async.ret];
      specialize (IH w1);
      destruct (start_all _ w1) as [rs w2]; cbn [fst] in *;
      destruct files as [|f files]; try discriminate.
    intros [= <- Hrest]. cbn [map FileDetails.filename].
    rewrite (IH files Hrest). reflexivity.
Qed.

(** X15.  In every world and for every order of completion, a listing that is
    fulfilled holds one record for each name [readdir] enumerated, in that
    order: no entry is skipped and no partial list is returned. *)
Theorem listing_is_whole (this : manager) (s : schedule) (w w1 w' : world)
    (names : list jsstring) (files : list FileDetails.t) :
  Fs.readdir (baseDir this) w = (Fulfilled names, w1) ->
  FileManager.listFiles this s w = (Fulfilled files, w') ->
  map FileDetails.filename files = names.
Proof.
  intros Hreaddir. unfold FileManager.listFiles, Async.try_catch.
  unfold Async.bind at 1. rewrite Hreaddir.
  unfold Async.bind at 1, Promise.all.
  destruct (start_all _ w1) as [states w2] eqn:Hstart.
  destruct (Promise.all_state s states) as [|vs|e] eqn:Hall;
    try discriminate.
  cbn [Async.ret]. intros [= <- _].
  apply all_state_fulfilled_inv in Hall. subst states.
  eapply started_details_names. rewrite Hstart. reflexivity.
Qed.

Lemma listing_is_whole_witness :
  Fs.readdir (baseDir Sample.fileManager) Sample.two_files =
    (Fulfilled [Sample.a_txt; Sample.b_txt],
     logged (SysReaddir (baseDir Sample.fileManager))
       (entries Sample.two_files) Sample.two_files) /\
  FileManager.listFiles Sample.fileManager [1%nat] Sample.two_files =
    (Fulfilled (listing (entries Sample.two_files)),
     after_listing Sample.fileManager Sample.two_files) /\
  map FileDetails.filename (listing (entries Sample.two_files)) =
    [Sample.a_txt; Sample.b_txt].
Proof.
  split; [reflexivity|]. split; [reflexivity|].
  apply (listing_is_whole Sample.fileManager [1%nat] Sample.two_files
           (logged (SysReaddir (baseDir Sample.fileManager))
              (entries Sample.two_files) Sample.two_files)
           (after_listing Sample.fileManager Sample.two_files)
           [Sample.a_txt; Sample.b_txt] (listing (entries Sample.two_files)));
    reflexivity.
Defined.

(** ** An entry that vanishes during a listing *)

Section Vanishing.
Variable this : manager.






End Vanishing.





Section Vanished.
Variable this : manager.
Variable n : jsstring.
Variable d : directory.
Hypothesis Hlisted : In n (map fst d).

Let e := Fs.ENOENT "stat" (path_join (baseDir this) n).




End Vanished.



(** ** Listings after a creation and after a deletion *)





(** ** The size a creation reports *)

(** X22.  For a content of ASCII characters, in a directory no other process
    touches, the size [createFile] reports is the size [readFile] then reports
    for the file. *)
Theorem create_size_agrees_on_ascii (this : manager) (name content : jsstring)
    (w : world) :
  Validator.isValidFilename name = true ->
  quiet w ->
  Fs.lookup name (entries w) = None ->
  List.Forall (fun u => 0 <= u < 0x80) content ->
  exists created w1 file w2,
    FileManager.createFile this name content w = (Fulfilled created, w1) /\
    FileManager.readFile this name w1 = (Fulfilled file, w2) /\
    CreateResult.size created = ReadResult.size file.
Proof.
  intros Hvalid Hquiet Habsent Hascii. do 4 eexists.
  split; [apply FileManagerFacts.createFile_absent; assumption|].
  split.
  - apply FileManagerFacts.readFile_file; [assumption | reflexivity |].
    cbn [entries logged]. apply FsFacts.lookup_put_same.
  - cbn [CreateResult.size ReadResult.size]. symmetry.
    apply (byteLength_ascii content Hascii).
Qed.

Lemma create_size_agrees_on_ascii_witness :
  Validator.isValidFilename Sample.a_txt = true /\
  quiet Sample.empty /\
  Fs.lookup Sample.a_txt (entries Sample.empty) = None /\
  List.Forall (fun u => 0 <= u < 0x80) (js "hi") /\
  exists created w1 file w2,
    FileManager.createFile Sample.fileManager Sample.a_txt (js "hi")
      Sample.empty = (Fulfilled created, w1) /\
    FileManager.readFile Sample.fileManager Sample.a_txt w1 =
      (Fulfilled file, w2) /\
    CreateResult.size created = ReadResult.size file.
Proof.
  assert (Hascii : List.Forall (fun u => 0 <= u < 0x80) (js "hi")).
  { repeat constructor; cbn; lia. }
  split; [reflexivity|]. split; [reflexivity|]. split; [reflexivity|].
  split; [exact Hascii|].
  apply (create_size_agrees_on_ascii Sample.fileManager Sample.a_txt (js "hi")
           Sample.empty); [reflexivity | reflexivity | reflexivity |].
  exact Hascii.
Defined.

(** ** A subdirectory among the entries *)

(** X23.  On the name of a subdirectory, in a directory no other process
    touches, [createFile] fails with [AlreadyExists], and [readFile] and
    [deleteFile] fail with a [StorageFailure], the error of the file system
    passed on with its code; the directory is left as it was. *)
Theorem subdirectory_entry (this : manager) (name content : jsstring)
    (st : Stats) (w : world) :
  Validator.isValidFilename name = true ->
  quiet w ->
  Fs.lookup name (entries w) = Some (Directory st) ->
  (fails_with (fst (FileManager.createFile this name content w))
     AlreadyExists /\
   entries (snd (FileManager.createFile this name content w)) = entries w) /\
  (exists error,
      fst (FileManager.readFile this name w) = Rejected error /\
      kind_of error = StorageFailure /\ code error = Some (js "EISDIR")) /\
  (exists error,
      fst (FileManager.deleteFile this name w) = Rejected error /\
      kind_of error = StorageFailure /\ code error <> None) /\
  entries (snd (FileManager.deleteFile this name w)) = entries w.
Proof.
  intros Hvalid Hquiet Hdir.
  rewrite (FileManagerFacts.createFile_present this name w Hvalid Hquiet
             content _ Hdir).
  rewrite (readFile_directory this name w st Hvalid Hquiet Hdir).
  rewrite (deleteFile_directory this name w st Hvalid Hquiet Hdir).
  cbn [fst snd entries logged].
  split; [split; [apply fails_with_message|]; reflexivity|].
  split; [eexists; split; [reflexivity | split; reflexivity]|].
  split; [|reflexivity].
  eexists. split; [reflexivity|]. split; [reflexivity | discriminate].
Qed.

Lemma subdirectory_entry_witness :
  Validator.isValidFilename (js "docs") = true /\
  quiet {| entries := [(js "docs",
                        Directory {| size := 4096; birthtime := 1;
                                     mtime := 2 |})];
           clock := 5; calls := []; others := [] |} /\
  Fs.lookup (js "docs")
    (entries {| entries := [(js "docs",
                             Directory {| size := 4096; birthtime := 1;
                                          mtime := 2 |})];
                clock := 5; calls := []; others := [] |}) =
    Some (Directory {| size := 4096; birthtime := 1; mtime := 2 |}) /\
  exists error,
    fst (FileManager.readFile Sample.fileManager (js "docs")
           {| entries := [(js "docs",
                           Directory {| size := 4096; birthtime := 1;
                                        mtime := 2 |})];
              clock := 5; calls := []; others := [] |}) = Rejected error /\
    kind_of error = StorageFailure /\ code error = Some (js "EISDIR").
Proof.
  split; [reflexivity|]. split; [reflexivity|]. split; [reflexivity|].
  apply (subdirectory_entry Sample.fileManager (js "docs") (js "x")
           {| size := 4096; birthtime := 1; mtime := 2 |}
           {| entries := [(js "docs",
                           Directory {| size := 4096; birthtime := 1;
                                        mtime := 2 |})];
              clock := 5; calls := []; others := [] |});
    reflexivity.
Defined.

(** ** The variants side by side *)






